(** * Payment-gated chat route: a shallow embedding of [app/api/chat/route.ts]

    The development follows the TypeScript source function by function:
    [verifyPayment], [POST] and [getGoogleModel], over a small model of the
    JavaScript values that the route manipulates (documents produced by
    [JSON.parse], property reads, truthiness, [toLowerCase], [BigInt]).

    Conventions.
    - A JavaScript string is modelled by a [string] whose characters are the
      code units 0..255 (Latin-1); all the text the route inspects
      (hexadecimal addresses, quantities, model identifiers) lives there.
    - A BigInt is a [Z]; BigInt arithmetic is unbounded, so no wrap-around
      is written anywhere.
    - IEEE doubles are not modelled. A JavaScript number is represented by
      the two observations the route can make of it, see [jsnumber].
    - [console.log] and [console.error] have no influence on any result and
      are left out.
    - A document handed to [JSON.stringify] for a response body or a header
      is represented by the document itself. *)

From Stdlib Require Import ZArith List String Ascii Bool Lia.
Import ListNotations.

Local Open Scope string_scope.
Local Open Scope Z_scope.

(** ** JavaScript values *)

Module Js.

(** A number, as far as the route can observe it: [num_int] is [Some z] when
    the double is finite and integral with mathematical value [z] (so both
    zeros are [Some 0]) and [None] otherwise; [num_str] is its rendering by
    [Number.prototype.toString]. [JSON.parse] never yields [NaN]. *)
Record jsnumber : Type := mkNumber {
  num_int : option Z;
  num_str : string
}.

(** Values reachable from [JSON.parse] and from property reads on them. The
    members of an object are kept in an association list; a read returns the
    first binding of the key. *)
#[warnings="-register-all"]
Inductive jsval : Type :=
| JUndefined
| JNull
| JBool (b : bool)
| JNum (n : jsnumber)
| JStr (s : string)
| JArr (items : list jsval)
| JObj (members : list (string * jsval)).

(** Exceptions, by constructor; [Error] carries the message given to
    [new Error(...)]. [NetworkError] is the rejection of [fetch]. *)
Inductive exn : Type :=
| TypeError
| SyntaxError
| RangeError
| NetworkError
| Error (message : string).

(** The completion of an evaluation: a value, or an abrupt [throw]. *)
Inductive completion (A : Type) : Type :=
| Normal (a : A)
| Throw (e : exn).
Arguments Normal {A} a.
Arguments Throw {A} e.

Definition cbind {A B} (c : completion A) (k : A -> completion B) : completion B :=
  match c with
  | Normal a => k a
  | Throw e => Throw e
  end.

(** *** Strings *)

Definition code (c : ascii) : N := N_of_ascii c.

Definition between (lo hi : N) (c : ascii) : bool :=
  ((lo <=? code c) && (code c <=? hi))%N.

(** Upper-case letters of Latin-1: A..Z, and U+00C0..U+00DE without the
    multiplication sign U+00D7. *)
Definition is_upper (c : ascii) : bool :=
  between 65 90 c || (between 192 222 c && negb (code c =? 215)%N).

Definition lower_char (c : ascii) : ascii :=
  if is_upper c then ascii_of_N (code c + 32) else c.

(** [String.prototype.toLowerCase]. *)
Fixpoint toLowerCase (s : string) : string :=
  match s with
  | EmptyString => EmptyString
  | String c s' => String (lower_char c) (toLowerCase s')
  end.

(** White space and line terminators (StrWhiteSpaceChar) below U+0100:
    TAB, LF, VT, FF, CR, SP and NBSP. *)
Definition is_space (c : ascii) : bool :=
  between 9 13 c || (code c =? 32)%N || (code c =? 160)%N.

Fixpoint trim_start (s : string) : string :=
  match s with
  | String c s' => if is_space c then trim_start s' else s
  | EmptyString => EmptyString
  end.

Fixpoint trim_end (s : string) : string :=
  match s with
  | EmptyString => EmptyString
  | String c s' =>
      match trim_end s' with
      | EmptyString => if is_space c then EmptyString else String c EmptyString
      | r => String c r
      end
  end.

Definition trim (s : string) : string := trim_end (trim_start s).

(** The value of a digit in bases up to sixteen. *)
Definition digit_value (c : ascii) : option Z :=
  if between 48 57 c then Some (Z.of_N (code c) - 48)
  else if between 97 102 c then Some (Z.of_N (code c) - 87)
  else if between 65 70 c then Some (Z.of_N (code c) - 55)
  else None.

Fixpoint digits_from (base : Z) (s : string) (acc : Z) : option Z :=
  match s with
  | EmptyString => Some acc
  | String c s' =>
      match digit_value c with
      | Some d => if d <? base then digits_from base s' (acc * base + d) else None
      | None => None
      end
  end.

(** One or more digits of the given base. *)
Definition digits (base : Z) (s : string) : option Z :=
  match s with
  | EmptyString => None
  | _ => digits_from base s 0
  end.

(** StringToBigInt: optional white space around nothing (zero), a signed
    decimal integer, or an unsigned literal with prefix 0x, 0o or 0b. *)
Definition StringToBigInt (s : string) : option Z :=
  match trim s with
  | EmptyString => Some 0
  | String "0" (String ("x" | "X") r) => digits 16 r
  | String "0" (String ("o" | "O") r) => digits 8 r
  | String "0" (String ("b" | "B") r) => digits 2 r
  | String "+" r => digits 10 r
  | String "-" r => option_map Z.opp (digits 10 r)
  | t => digits 10 t
  end%char.

(** Decimal rendering of a BigInt ([BigInt.prototype.toString]). *)
Fixpoint decimal_from (fuel : nat) (n : Z) (acc : string) : string :=
  match fuel with
  | O => acc
  | S fuel' =>
      let acc' := String (ascii_of_N (Z.to_N (48 + n mod 10))) acc in
      if n <? 10 then acc' else decimal_from fuel' (n / 10) acc'
  end.

Definition bigint_toString (z : Z) : string :=
  let body := decimal_from (S (Z.to_nat (Z.log2 (Z.abs z)))) (Z.abs z) "" in
  if z <? 0 then String "-" body else body.

(** *** Conversions on values *)

(** ToBoolean. *)
Definition truthy (v : jsval) : bool :=
  match v with
  | JUndefined | JNull => false
  | JBool b => b
  | JNum n => match num_int n with Some 0 => false | _ => true end
  | JStr s => negb (String.eqb s "")
  | JArr _ | JObj _ => true
  end.

(** [a || b]. *)
Definition or_else (a b : jsval) : jsval := if truthy a then a else b.

Fixpoint assoc (k : string) (ms : list (string * jsval)) : option jsval :=
  match ms with
  | [] => None
  | (k', v) :: ms' => if String.eqb k k' then Some v else assoc k ms'
  end.

(** The names that every ordinary object inherits from [Object.prototype];
    each is bound there to a function or, for [__proto__], to the prototype
    object itself. *)
Definition object_prototype_names : list string :=
  [ "constructor"; "hasOwnProperty"; "isPrototypeOf"; "propertyIsEnumerable";
    "toLocaleString"; "toString"; "valueOf"; "__proto__";
    "__defineGetter__"; "__defineSetter__"; "__lookupGetter__"; "__lookupSetter__" ].

Definition mem (k : string) (ks : list string) : bool :=
  existsb (String.eqb k) ks.

(** [v.k] for the property names that the route reads from documents:
    [result], [status], [to], [value], [messages], [model], [role] and
    [content]. None of them is defined on the prototype of objects, arrays,
    strings, numbers or booleans, so a read finds an own member of an object
    or nothing; reading from [undefined] or [null] throws. *)
Definition get (v : jsval) (k : string) : completion jsval :=
  match v with
  | JUndefined | JNull => Throw TypeError
  | JObj ms => Normal (match assoc k ms with Some x => x | None => JUndefined end)
  | _ => Normal JUndefined
  end.

(** ToString. An object converts through [Object.prototype.toString] unless
    it has an own member [toString]: a member coming from [JSON.parse] is
    never callable and [valueOf] returns the object, so the conversion
    throws. An array converts through [join]. *)
Fixpoint to_string (v : jsval) : completion string :=
  match v with
  | JUndefined => Normal "undefined"
  | JNull => Normal "null"
  | JBool b => Normal (if b then "true" else "false")
  | JNum n => Normal (num_str n)
  | JStr s => Normal s
  | JArr items =>
      (fix join (first : bool) (l : list jsval) : completion string :=
         match l with
         | [] => Normal ""
         | x :: l' =>
             cbind (match x with
                    | JUndefined | JNull => Normal ""
                    | _ => to_string x
                    end) (fun sx =>
             cbind (join false l') (fun sl =>
             Normal ((if first then "" else ",") ++ sx ++ sl)))
         end) true items
  | JObj ms =>
      match assoc "toString" ms with
      | Some _ => Throw TypeError
      | None => Normal "[object Object]"
      end
  end.

(** [BigInt(v)] called as a function: ToPrimitive, then NumberToBigInt for a
    number and ToBigInt for the rest. *)
Definition BigInt (v : jsval) : completion Z :=
  let of_string s :=
    match StringToBigInt s with Some z => Normal z | None => Throw SyntaxError end in
  match v with
  | JUndefined | JNull => Throw TypeError
  | JBool b => Normal (if b then 1 else 0)
  | JNum n => match num_int n with Some z => Normal z | None => Throw RangeError end
  | JStr s => of_string s
  | JArr _ | JObj _ => cbind (to_string v) of_string
  end.

End Js.

(** ** The route *)

Module Route.
Import Js.

(** *** Effects

    What the handler does to the outside is recorded as a list of events, in
    program order: the JSON-RPC posts to the ledger node, the read of the
    request body and the call of the completion capability. *)

Inductive model_handle : Type :=
| GoogleModel (id : string)      (* the result of [google(id)] *)
| Inherited (name : string).     (* the member [name] of [Object.prototype] *)

Record core_message : Type := mkMessage {
  role : jsval;
  content : jsval
}.

Inductive event : Type :=
| RpcPost (url method : string) (params : list string) (id : Z)
| ReadBody
| StreamText (model : model_handle) (messages : list core_message) (system : string).

(** A computation: the events it performed and how it completed. *)
Definition M (A : Type) : Type := (list event * completion A)%type.

Definition ret {A} (a : A) : M A := ([], Normal a).
Definition throw {A} (e : exn) : M A := ([], Throw e).
Definition emit (ev : event) : M unit := ([ev], Normal tt).
Definition lift {A} (c : completion A) : M A := ([], c).

Definition bind {A B} (m : M A) (k : A -> M B) : M B :=
  match m with
  | (t, Normal a) => let (t', r) := k a in ((t ++ t')%list, r)
  | (t, Throw e) => (t, Throw e)
  end.

(** [try { m } catch (e) { handler e }]. *)
Definition try_catch {A} (m : M A) (handler : exn -> M A) : M A :=
  match m with
  | (t, Normal a) => (t, Normal a)
  | (t, Throw e) => let (t', r) := handler e in ((t ++ t')%list, r)
  end.

Notation "x <- m ;; k" := (bind m (fun x => k))
  (at level 61, m at next level, right associativity).
Notation "m ;;; k" := (bind m (fun _ => k))
  (at level 61, right associativity).

Definition trace {A} (m : M A) : list event := fst m.
Definition outcome {A} (m : M A) : completion A := snd m.

(** *** The environment of a request *)

(** What the ledger node does with one post: the connection fails, or a
    response arrives whose body parses as JSON ([Some]) or does not. *)
Inductive fetched : Type :=
| Unreachable
| Replied (json : option jsval).

(** A run of the handler posts each method at most once for one hash, so
    the node is a function of the method and the hash. *)
Record world : Type := mkWorld {
  SERVER_WALLET : option string;          (* process.env.SERVER_WALLET *)
  NEXT_PUBLIC_APP_URL : option string;    (* process.env.NEXT_PUBLIC_APP_URL *)
  rpc : string -> string -> fetched;      (* by JSON-RPC method and hash *)
  stream_fault : model_handle -> list core_message -> option exn
}.

Record request : Type := mkRequest {
  x_payment : option string;              (* request.headers.get('x-payment') *)
  payload : option jsval                  (* the body, when it parses as JSON *)
}.

Inductive rendered : Type :=
| Plain (text : string)
| Stringify (doc : jsval).

Inductive body : Type :=
| Json (doc : jsval)
| Failure (error : exn)   (* {error: error.message or a default, details: ...} *)
| TextStream (model : model_handle) (messages : list core_message).

(** [headers] lists the headers that the route sets itself. *)
Record response : Type := mkResponse {
  status : Z;
  headers : list (string * rendered);
  content_of : body
}.

(** *** Constants *)

Definition MONAD_TESTNET_RPC : string := "https://testnet-rpc.monad.xyz".
Definition MONAD_TESTNET_CHAIN_ID : Z := 10143.
Definition QUERY_PRICE_MON : string := "0.001".
Definition QUERY_PRICE_WEI_literal : string := "1000000000000000".
Definition QUERY_PRICE_WEI : Z :=
  match StringToBigInt QUERY_PRICE_WEI_literal with Some z => z | None => 0 end.

(** *** [verifyPayment] *)

Definition fetch (w : world) (method txHash : string) (id : Z) : M fetched :=
  emit (RpcPost MONAD_TESTNET_RPC method [txHash] id) ;;;
  match rpc w method txHash with
  | Unreachable => throw NetworkError
  | r => ret r
  end.

(** [response.json()]. *)
Definition json (r : fetched) : M jsval :=
  match r with
  | Replied (Some d) => ret d
  | _ => throw SyntaxError
  end.

(** [v === s] for a string [s]. *)
Definition is_string (v : jsval) (s : string) : bool :=
  match v with
  | JStr t => String.eqb t s
  | _ => false
  end.

(** [v?.toLowerCase()]. A value that is neither nullish nor a string has no
    callable [toLowerCase]. *)
Definition opt_toLowerCase (v : jsval) : completion jsval :=
  match v with
  | JUndefined | JNull => Normal JUndefined
  | JStr s => Normal (JStr (toLowerCase s))
  | _ => Throw TypeError
  end.

(** The body of the [try] block. *)
Definition verifyPayment_try (w : world) (txHash expectedRecipient : string) : M bool :=
  response <- fetch w "eth_getTransactionReceipt" txHash 1 ;;
  data <- json response ;;
  receipt <- lift (get data "result") ;;
  if negb (truthy receipt) then ret false else
  receipt_status <- lift (get receipt "status") ;;
  if negb (is_string receipt_status "0x1") then ret false else
  txResponse <- fetch w "eth_getTransactionByHash" txHash 2 ;;
  txData <- json txResponse ;;
  tx <- lift (get txData "result") ;;
  if negb (truthy tx) then ret false else
  tx_to <- lift (get tx "to") ;;
  txTo <- lift (opt_toLowerCase tx_to) ;;
  let expected := toLowerCase expectedRecipient in
  if negb (is_string txTo expected) then ret false else
  tx_value <- lift (get tx "value") ;;
  txValue <- lift (BigInt (or_else tx_value (JStr "0"))) ;;
  if txValue <? QUERY_PRICE_WEI then ret false else
  ret true.

Definition verifyPayment (w : world) (txHash expectedRecipient : string) : M bool :=
  try_catch (verifyPayment_try w txHash expectedRecipient) (fun _ => ret false).

(** *** [getGoogleModel] *)

Definition google (id : string) : model_handle := GoogleModel id.

Definition models : list (string * model_handle) :=
  [ ("gemini-2.5-flash", google "gemini-2.5-flash");
    ("gemini-2.0-flash", google "gemini-2.0-flash");
    ("gemini-1.5-pro", google "gemini-1.5-pro") ].

Fixpoint own (k : string) (ms : list (string * model_handle)) : option model_handle :=
  match ms with
  | [] => None
  | (k', m) :: ms' => if String.eqb k k' then Some m else own k ms'
  end.

(** [models[key]]: an own member, else a member inherited from
    [Object.prototype], else [undefined]. *)
Definition models_at (key : string) : option model_handle :=
  match own key models with
  | Some m => Some m
  | None => if mem key object_prototype_names then Some (Inherited key) else None
  end.

(** [models[modelId] || google('gemini-2.5-flash')]. The annotation
    [modelId: string] is erased at run time; the argument is whatever the
    request body holds, converted to a property key. Model handles and the
    members of [Object.prototype] are all truthy. *)
Definition getGoogleModel (modelId : jsval) : completion model_handle :=
  cbind (to_string modelId) (fun key =>
  Normal (match models_at key with
          | Some m => m
          | None => google "gemini-2.5-flash"
          end)).

(** *** [POST] *)

(** ToBoolean of a [string | null] or [string | undefined]. *)
Definition provided (o : option string) : bool :=
  match o with
  | Some s => negb (String.eqb s "")
  | None => false
  end.

(** The string held by a value that passed the test above. *)
Definition held (o : option string) : string :=
  match o with
  | Some s => s
  | None => ""
  end.

(** A string-valued expression inside a template literal. *)
Definition interpolate (o : option string) : string :=
  match o with
  | Some s => s
  | None => "undefined"
  end.

(** An integer constant of the source. Below 10^21 in magnitude, a number
    with an integral value renders as its decimal expansion. *)
Definition integer_toString (z : Z) : string := bigint_toString z.

Definition number (z : Z) : jsval := JNum (mkNumber (Some z) (integer_toString z)).

Definition SYSTEM_PROMPT : string :=
  "You are a helpful AI assistant. Provide clear, accurate, and concise responses.".

Definition json_headers : list (string * rendered) :=
  [ ("Content-Type", Plain "application/json") ].

Definition payment_requirement (w : world) (serverWallet : string) : jsval :=
  JObj [ ("scheme", JStr "exact");
         ("network", JStr ("eip155:" ++ integer_toString MONAD_TESTNET_CHAIN_ID));
         ("maxAmountRequired", JStr (bigint_toString QUERY_PRICE_WEI));
         ("resource", JStr (interpolate (NEXT_PUBLIC_APP_URL w) ++ "/api/chat"));
         ("description", JStr "AI Query Payment");
         ("mimeType", JStr "application/json");
         ("payTo", JStr serverWallet);
         ("maxTimeoutSeconds", number 86400);
         ("asset", JStr "native");
         ("outputSchema",
           JObj [ ("input", JObj [ ("type", JStr "http"); ("method", JStr "POST");
                                   ("discoverable", JBool true) ]) ]);
         ("extra",
           JObj [ ("recipientAddress", JStr serverWallet);
                  ("name", JStr "MON");
                  ("symbol", JStr "MON");
                  ("decimals", number 18);
                  ("priceFormatted", JStr (QUERY_PRICE_MON ++ " MON")) ]) ].

Definition challenge (w : world) (serverWallet : string) : response :=
  mkResponse 402 json_headers
    (Json (JObj [ ("x402Version", number 1);
                  ("error", JStr "X-PAYMENT header is required");
                  ("accepts", JArr [ payment_requirement w serverWallet ]) ])).

Definition VERIFICATION_FAILED : string :=
  "Payment verification failed. Please ensure the transaction is confirmed on Monad testnet.".

Definition rejection : response :=
  mkResponse 402 json_headers
    (Json (JObj [ ("x402Version", number 1);
                  ("error", JStr VERIFICATION_FAILED) ])).

Definition configuration_error : response :=
  mkResponse 500 [] (Json (JObj [ ("error", JStr "Server configuration error") ])).

(** [request.json()]. *)
Definition request_json (r : request) : M jsval :=
  emit ReadBody ;;;
  match payload r with
  | Some d => ret d
  | None => throw SyntaxError
  end.

(** [messages.map(msg => ({role: msg.role, content: msg.content}))]. *)
Fixpoint map_messages (msgs : list jsval) : completion (list core_message) :=
  match msgs with
  | [] => Normal []
  | msg :: rest =>
      cbind (get msg "role") (fun r =>
      cbind (get msg "content") (fun c =>
      cbind (map_messages rest) (fun ms =>
      Normal (mkMessage r c :: ms))))
  end.

(** [streamText({model, messages, system})] followed by
    [toTextStreamResponse()]. *)
Definition streamText (w : world) (model : model_handle) (messages : list core_message)
    (system : string) : M body :=
  emit (StreamText model messages system) ;;;
  match stream_fault w model messages with
  | Some e => throw e
  | None => ret (TextStream model messages)
  end.

(** The body of the [try] block. *)
Definition POST_try (w : world) (req : request) : M response :=
  let paymentData := x_payment req in
  let serverWallet := SERVER_WALLET w in
  if negb (provided serverWallet) then ret configuration_error else
  if negb (provided paymentData) then ret (challenge w (held serverWallet)) else
  isValid <- verifyPayment w (held paymentData) (held serverWallet) ;;
  if negb isValid then ret rejection else
  doc <- request_json req ;;
  doc_messages <- lift (get doc "messages") ;;
  let messages := match doc_messages with JUndefined => JArr [] | v => v end in
  model <- lift (get doc "model") ;;
  selectedModel <- lift (getGoogleModel model) ;;
  match messages with
  | JArr items =>
      coreMessages <- lift (map_messages items) ;;
      result <- streamText w selectedModel coreMessages SYSTEM_PROMPT ;;
      ret (mkResponse 200
             [ ("X-Payment-Receipt",
                Stringify (JObj [ ("txHash", JStr (held paymentData));
                                  ("verified", JBool true) ])) ]
             result)
  | _ => throw (Error "Messages must be an array")
  end.

Definition POST (w : world) (req : request) : M response :=
  try_catch (POST_try w req) (fun error => ret (mkResponse 500 [] (Failure error))).

End Route.

(** ** Vocabulary of the specification *)

Module Spec.
Import Js Route.

Definition RECEIPT : string := "eth_getTransactionReceipt".
Definition TRANSACTION : string := "eth_getTransactionByHash".

(** The two posts of a verification that reaches the transaction. *)
Definition receipt_post (txHash : string) : event :=
  RpcPost MONAD_TESTNET_RPC RECEIPT [txHash] 1.
Definition transaction_post (txHash : string) : event :=
  RpcPost MONAD_TESTNET_RPC TRANSACTION [txHash] 2.

(** The receipt of [txHash] resolves: the node replies with JSON whose
    [result] is truthy, and [status] reads as [status_field]. *)
Inductive ReceiptResolves (w : world) (txHash : string) (status_field : jsval) : Prop :=
| receipt_resolves (data receipt : jsval) :
    rpc w RECEIPT txHash = Replied (Some data) ->
    get data "result" = Normal receipt ->
    truthy receipt = true ->
    get receipt "status" = Normal status_field ->
    ReceiptResolves w txHash status_field.

(** The transaction of [txHash] resolves, with the given [to] and [value]
    members. *)
Inductive TransactionResolves (w : world) (txHash : string) (to value : jsval) : Prop :=
| transaction_resolves (txData tx : jsval) :
    rpc w TRANSACTION txHash = Replied (Some txData) ->
    get txData "result" = Normal tx ->
    truthy tx = true ->
    get tx "to" = Normal to ->
    get tx "value" = Normal value ->
    TransactionResolves w txHash to value.

(** The amount a [value] member stands for: [BigInt(value || '0')]. *)
Definition amount (value : jsval) : completion Z :=
  BigInt (or_else value (JStr "0")).

(** Everything [verifyPayment] requires of a proof. *)
Inductive Accepted (w : world) (txHash expectedRecipient : string) : Prop :=
| accepted (to : string) (value : jsval) (paid : Z) :
    ReceiptResolves w txHash (JStr "0x1") ->
    TransactionResolves w txHash (JStr to) value ->
    toLowerCase to = toLowerCase expectedRecipient ->
    amount value = Normal paid ->
    QUERY_PRICE_WEI <= paid ->
    Accepted w txHash expectedRecipient.

(** Two characters are the same letter in different cases when the first is
    an upper-case letter and the second lies 32 code points above it. *)
Definition lower_of (a b : ascii) : bool :=
  is_upper a && (code b =? code a + 32)%N.

Definition same_letter (a b : ascii) : bool :=
  Ascii.eqb a b || lower_of a b || lower_of b a.

(** Two strings differ by letter case only (or not at all). *)
Fixpoint equal_up_to_case (s t : string) : bool :=
  match s, t with
  | EmptyString, EmptyString => true
  | String a s', String b t' => same_letter a b && equal_up_to_case s' t'
  | _, _ => false
  end.

(** Field-by-field validation of a transaction reply as the specification
    words it: presence and type of [result] (an object), [to] (a string) and
    [value] (a string). *)
Definition is_object (v : jsval) : bool :=
  match v with JObj _ => true | _ => false end.

Definition is_text (v : jsval) : bool :=
  match v with JStr _ => true | _ => false end.

Definition member_is (check : jsval -> bool) (doc : jsval) (k : string) : bool :=
  match get doc k with
  | Normal v => check v
  | Throw _ => false
  end.

Definition transaction_well_typed (reply : fetched) : bool :=
  match reply with
  | Replied (Some txData) =>
      match get txData "result" with
      | Normal tx => is_object tx && member_is is_text tx "to" && member_is is_text tx "value"
      | Throw _ => false
      end
  | _ => false
  end.

(** An event of the verification path. *)
Definition is_rpc_post (ev : event) : bool :=
  match ev with RpcPost _ _ _ _ => true | _ => false end.

(** An event of the completion stage. *)
Definition is_completion_event (ev : event) : bool :=
  match ev with ReadBody | StreamText _ _ _ => true | _ => false end.

(** The [messages] member of a body after the default of the destructuring
    pattern [{ messages = [], model }]. *)
Definition messages_of (doc : jsval) : completion jsval :=
  cbind (get doc "messages") (fun v =>
  Normal (match v with JUndefined => JArr [] | _ => v end)).

(** The roles the completion capability enumerates. *)
Definition enumerated_role (r : jsval) : bool :=
  is_string r "user" || is_string r "assistant" || is_string r "system".

(** The verdict of [verifyPayment] on an amount. *)
Definition verdict (a : completion Z) : bool :=
  match a with
  | Normal paid => QUERY_PRICE_WEI <=? paid
  | Throw _ => false
  end.

(** The model identifiers the route knows. *)
Definition RECOGNIZED : list string :=
  [ "gemini-2.5-flash"; "gemini-2.0-flash"; "gemini-1.5-pro" ].

(** The node's encoding of a quantity: [0x], then the hexadecimal digits in
    lower case, most significant first, without leading zeros. *)
Definition hex_digit (d : Z) : ascii :=
  ascii_of_N (Z.to_N (if d <? 10 then 48 + d else 87 + d)).

Fixpoint hex_from (fuel : nat) (n : Z) (acc : string) : string :=
  match fuel with
  | O => acc
  | S fuel' =>
      let acc' := String (hex_digit (n mod 16)) acc in
      if n <? 16 then acc' else hex_from fuel' (n / 16) acc'
  end.

Definition quantity (n : Z) : string :=
  "0x" ++ hex_from (S (Z.to_nat (Z.log2 n))) n "".

Fixpoint spaceless (s : string) : bool :=
  match s with
  | EmptyString => true
  | String c s' => negb (is_space c) && spaceless s'
  end.

(** Every character. *)
Definition all_chars : list ascii := List.map ascii_of_nat (seq 0 256).

(** *** Sample worlds and requests *)

Definition WALLET : string := "0xAbC0000000000000000000000000000000000123".
Definition HASH : string :=
  "0x5c504ed432cb51138bcf09aa5e8a410dd4a1e204ef84bfed1be16dfba1b22060".

(** A node that knows one transaction to [to] carrying [value], with receipt
    status [st]. *)
Definition node (st to value : jsval) (method txHash : string) : fetched :=
  if String.eqb method RECEIPT
  then Replied (Some (JObj [ ("jsonrpc", JStr "2.0"); ("id", number 1);
                             ("result", JObj [ ("transactionHash", JStr txHash);
                                               ("status", st) ]) ]))
  else Replied (Some (JObj [ ("jsonrpc", JStr "2.0"); ("id", number 2);
                             ("result", JObj [ ("hash", JStr txHash);
                                               ("to", to);
                                               ("value", value) ]) ])).

Definition world_of (st to value : jsval) : world :=
  mkWorld (Some WALLET) (Some "https://chat.example") (node st to value) (fun _ _ => None).

(** Exactly the price, 0x38d7ea4c68000 = 10^15, paid to the wallet written
    in lower case. *)
Definition paid_world : world :=
  world_of (JStr "0x1") (JStr (toLowerCase WALLET)) (JStr "0x38d7ea4c68000").

(** The price paid, the [value] member being a JSON number. *)
Definition numeric_world : world :=
  world_of (JStr "0x1") (JStr WALLET) (number 1000000000000000).

(** A success status written with a leading zero. *)
Definition padded_status_world : world :=
  world_of (JStr "0x01") (JStr WALLET) (JStr "0x38d7ea4c68000").

(** A reverted transaction. *)
Definition reverted_world : world :=
  world_of (JStr "0x0") (JStr WALLET) (JStr "0x38d7ea4c68000").

(** A server without [SERVER_WALLET]. *)
Definition unconfigured_world : world :=
  mkWorld None (Some "https://chat.example")
          (node (JStr "0x1") (JStr WALLET) (JStr "0x38d7ea4c68000")) (fun _ _ => None).

Definition hello (role_name : string) : jsval :=
  JObj [ ("role", JStr role_name); ("content", JStr "Hello") ].

Definition chat_request : request :=
  mkRequest (Some HASH)
    (Some (JObj [ ("messages", JArr [ hello "user" ]);
                  ("model", JStr "gemini-2.0-flash") ])).

Definition bare_request : request := mkRequest (Some HASH) (Some (JObj [])).

Definition narrator_request : request :=
  mkRequest (Some HASH) (Some (JObj [ ("messages", JArr [ hello "narrator" ]) ])).

Definition constructor_request : request :=
  mkRequest (Some HASH)
    (Some (JObj [ ("messages", JArr [ hello "user" ]);
                  ("model", JStr "constructor") ])).

End Spec.

(** ** The page: fragments of [handleFormSubmit]

    The submit handler of the page drives a wallet and React state; the
    fragments embedded here are the ones that talk to the route: the two
    requests it builds, what it reads from a 402 answer, and how it reads the
    streamed answer. [JSON.parse] is taken as a parameter of the stream
    reader. *)

Module Client.
Import Js Route.

Inductive chat_role : Type := user | assistant.

Definition role_name (r : chat_role) : string :=
  match r with
  | user => "user"
  | assistant => "assistant"
  end.

(** An element of the [messages] state. *)
Record chat_message : Type := mkChat {
  id : string;
  role : chat_role;
  content : string
}.

(** A state message as [JSON.stringify] writes it and [request.json()]
    reads it back. *)
Definition to_json (msg : chat_message) : jsval :=
  JObj [ ("id", JStr (id msg));
         ("role", JStr (role_name (role msg)));
         ("content", JStr (content msg)) ].

(** The preflight request: no proof header. *)
Definition preflight (currentInput selectedModel : string) : request :=
  mkRequest None
    (Some (JObj [ ("messages",
                   JArr [ JObj [ ("role", JStr "user");
                                 ("parts", JArr [ JObj [ ("type", JStr "text");
                                                         ("text", JStr currentInput) ] ]) ] ]);
                  ("model", JStr selectedModel) ])).

(** The chat request: the header is attached when [localStorage] holds a
    hash. *)
Definition chat_call (messages : list chat_message) (currentInput selectedModel : string)
    (storedPaymentHash : option string) : request :=
  mkRequest (if provided storedPaymentHash then storedPaymentHash else None)
    (Some (JObj [ ("messages",
                   JArr (List.map to_json messages
                         ++ [ JObj [ ("role", JStr "user");
                                     ("content", JStr currentInput) ] ])%list);
                  ("model", JStr selectedModel) ])).

(** [v[0]], for a value that is not nullish. *)
Definition first_of (v : jsval) : completion jsval :=
  match v with
  | JUndefined | JNull => Throw TypeError
  | JArr items => Normal (match items with x :: _ => x | [] => JUndefined end)
  | JStr s => Normal (match s with String c _ => JStr (String c "") | "" => JUndefined end)
  | JObj ms => Normal (match assoc "0" ms with Some x => x | None => JUndefined end)
  | JBool _ | JNum _ => Normal JUndefined
  end.

(** The recipient read from the body of a 402 answer; [accepts] and [payTo]
    are own members or nothing, as for the names read by the route. *)
Definition payment_target (paymentInfo : jsval) : completion jsval :=
  cbind (get paymentInfo "accepts") (fun paymentInfo_accepts =>
  let accepts := or_else paymentInfo_accepts (JArr []) in
  cbind (first_of accepts) (fun paymentOption =>
  if negb (truthy paymentOption) then Throw (Error "No payment options available") else
  get paymentOption "payTo")).

Definition LF : ascii := ascii_of_N 10.

(** [chunk.split('\n')]. *)
Fixpoint split_lines (s : string) : list string :=
  match s with
  | EmptyString => [EmptyString]
  | String c s' =>
      if Ascii.eqb c LF then EmptyString :: split_lines s'
      else match split_lines s' with
           | line :: rest => String c line :: rest
           | [] => [String c EmptyString]
           end
  end.

(** [s.startsWith(p)]. *)
Definition startsWith (s p : string) : bool := String.prefix p s.

(** [line.slice(2)]. *)
Definition slice2 (line : string) : string :=
  match line with
  | String _ (String _ rest) => rest
  | _ => EmptyString
  end.

(** [prev.map(msg => msg.id === assistantMessageId
                     ? {...msg, content: fullContent} : msg)]. *)
Definition set_content (assistantMessageId fullContent : string)
    (prev : list chat_message) : list chat_message :=
  List.map (fun msg =>
              if String.eqb (id msg) assistantMessageId
              then mkChat (id msg) (role msg) fullContent
              else msg) prev.

Section Stream.
Variable JSON_parse : string -> completion jsval.
Variable assistantMessageId : string.

(** [fullContent += textContent] in the [try] block, and
    [fullContent += line.slice(2)] in its [catch] when parsing or the
    conversion of the parsed value to a string throws. *)
Definition appended (fullContent line : string) : string :=
  match cbind (JSON_parse (slice2 line)) to_string with
  | Normal text => fullContent ++ text
  | Throw _ => fullContent ++ slice2 line
  end.

(** One turn of [for (const line of lines)], on the pair of [fullContent]
    and the [messages] state. *)
Definition read_line (state : string * list chat_message) (line : string)
    : string * list chat_message :=
  let (fullContent, messages) := state in
  if startsWith line "0:"
  then let fullContent' := appended fullContent line in
       (fullContent', set_content assistantMessageId fullContent' messages)
  else state.

(** One turn of the read loop, on a decoded chunk. *)
Definition read_chunk (state : string * list chat_message) (chunk : string)
    : string * list chat_message :=
  fold_left read_line (split_lines chunk) state.
End Stream.

(** The assistant message shows [fullContent]. *)
Definition shows (assistantMessageId fullContent : string)
    (messages : list chat_message) : Prop :=
  forall msg, In msg messages -> id msg = assistantMessageId -> content msg = fullContent.

End Client.

(** ** More vocabulary and samples *)

Module Cases.
Import Js Route Spec.

Definition is_array (v : jsval) : bool :=
  match v with JArr _ => true | _ => false end.

(** The posts of an accepted verification. *)
Definition paid_posts (req : request) : list event :=
  [ receipt_post (held (x_payment req)); transaction_post (held (x_payment req)) ].

(** The receipt attached to an admitted answer. *)
Definition receipt_header (req : request) : list (string * rendered) :=
  [ ("X-Payment-Receipt",
     Stringify (JObj [ ("txHash", JStr (held (x_payment req))); ("verified", JBool true) ])) ].

(** The answer of the outer [catch]. *)
Definition internal_error (e : exn) : response := mkResponse 500 [] (Failure e).

(** The model a string identifier should resolve to. *)
Definition expected_model (id : string) : model_handle :=
  if mem id RECOGNIZED then google id
  else if mem id object_prototype_names then Inherited id
  else google "gemini-2.5-flash".

(** What the route hands on for a state message of the page. *)
Definition core_of (msg : Client.chat_message) : core_message :=
  mkMessage (JStr (Client.role_name (Client.role msg))) (JStr (Client.content msg)).

(** A header value that [fetch] and [Headers] carry unchanged: visible ASCII
    characters only, as in a transaction hash. *)
Fixpoint header_token (s : string) : bool :=
  match s with
  | EmptyString => true
  | String c s' => between 33 126 c && header_token s'
  end.

(** A paid request whose [messages] member is a string. *)
Definition text_messages_request : request :=
  mkRequest (Some HASH) (Some (JObj [ ("messages", JStr "Hello") ])).

(** A paid request whose body is not JSON. *)
Definition unreadable_request : request := mkRequest (Some HASH) None.

(** The paid world with a completion capability that fails. *)
Definition failing_world : world :=
  mkWorld (Some WALLET) (Some "https://chat.example")
          (node (JStr "0x1") (JStr (toLowerCase WALLET)) (JStr "0x38d7ea4c68000"))
          (fun _ _ => Some (Error "quota exceeded")).

(** An element of [messages] from which [role] and [content] can be read. *)
Definition readable (item : jsval) : bool :=
  match item with
  | JUndefined | JNull => false
  | _ => true
  end.

(** [item.k] for a readable item. *)
Definition member (item : jsval) (k : string) : jsval :=
  match get item k with
  | Normal v => v
  | Throw _ => JUndefined
  end.

(** What the route hands on for an element of [messages]. *)
Definition core_of_item (item : jsval) : core_message :=
  mkMessage (member item "role") (member item "content").

(** The error of the outer [catch] for a paid request whose [messages] is
    not an array: the model is looked up before the array test. *)
Definition bad_messages_error (doc : jsval) : exn :=
  match cbind (get doc "model") getGoogleModel with
  | Normal _ => Error "Messages must be an array"
  | Throw e => e
  end.

(** The paid world with any completion capability. *)
Definition paid_world_with (fault : model_handle -> list core_message -> option exn) : world :=
  mkWorld (Some WALLET) (Some "https://chat.example")
          (node (JStr "0x1") (JStr (toLowerCase WALLET)) (JStr "0x38d7ea4c68000")) fault.

(** A paid request whose [messages] is a string and whose [model] is an
    object with a member [toString]. *)
Definition odd_model_request : request :=
  mkRequest (Some HASH)
    (Some (JObj [ ("messages", JStr "Hello");
                  ("model", JObj [ ("toString", number 1) ]) ])).

(** A parser that accepts nothing. *)
Definition no_json (s : string) : completion jsval := Throw SyntaxError.

End Cases.

(** ** Proofs *)

Import Js Route Spec.

(** *** Events of composed computations *)

Section Events.
Context {A B : Type}.

Lemma in_trace_bind (m : M A) (k : A -> M B) ev :
  In ev (trace (bind m k)) ->
  In ev (trace m) \/ exists a, outcome m = Normal a /\ In ev (trace (k a)).
Proof.
  destruct m as [t [a | e]]; cbn; [ | now left].
  destruct (k a) as [t' r] eqn:Hk; cbn. intros H.
  apply in_app_or in H as [H | H]; [now left | right].
  exists a. now rewrite Hk.
Qed.

Lemma in_trace_try_catch (m : M A) (h : exn -> M A) ev :
  In ev (trace (try_catch m h)) ->
  In ev (trace m) \/ exists e, outcome m = Throw e /\ In ev (trace (h e)).
Proof.
  destruct m as [t [a | e]]; cbn; [now left | ].
  destruct (h e) as [t' r] eqn:Hh; cbn. intros H.
  apply in_app_or in H as [H | H]; [now left | right].
  exists e. now rewrite Hh.
Qed.

Lemma trace_bind_cons (m : M A) (k : A -> M B) ev t :
  trace m = ev :: t -> exists t', trace (bind m k) = ev :: t'.
Proof.
  destruct m as [t0 [a | e]]; cbn; intros ->; [ | eauto].
  destruct (k a); cbn; eauto.
Qed.

Lemma outcome_lift (c : completion A) : outcome (lift c) = c.
Proof. reflexivity. Qed.
End Events.

Lemma not_in_rpc_posts ev t :
  forallb is_rpc_post t = true -> is_rpc_post ev = false -> ~ In ev t.
Proof.
  intros Hall Hev Hin. rewrite forallb_forall in Hall. apply Hall in Hin. congruence.
Qed.

Lemma rpc_posts_are_not_completion t :
  forallb is_rpc_post t = true -> existsb is_completion_event t = false.
Proof.
  induction t as [ | ev t IH]; cbn; [reflexivity | ].
  intros H. apply andb_prop in H as [Hev Ht]. rewrite (IH Ht). now destruct ev.
Qed.

(** *** Letter case *)

Lemma all_chars_complete (c : ascii) : In c all_chars.
Proof.
  unfold all_chars. rewrite <- (ascii_nat_embedding c).
  apply in_map, in_seq. pose proof (nat_ascii_bounded c). lia.
Qed.

(** Lower-casing identifies exactly the two cases of one letter; checked on
    the 256 x 256 pairs of characters. *)
Lemma lower_char_same_letter (a b : ascii) :
  Ascii.eqb (lower_char a) (lower_char b) = same_letter a b.
Proof.
  assert (H : forallb (fun a => forallb (fun b =>
                Bool.eqb (Ascii.eqb (lower_char a) (lower_char b)) (same_letter a b))
                all_chars) all_chars = true) by (vm_compute; reflexivity).
  rewrite forallb_forall in H. specialize (H a (all_chars_complete a)).
  rewrite forallb_forall in H. specialize (H b (all_chars_complete b)).
  now apply Bool.eqb_prop.
Qed.

Lemma toLowerCase_equal_up_to_case (s t : string) :
  String.eqb (toLowerCase s) (toLowerCase t) = equal_up_to_case s t.
Proof.
  revert t; induction s as [ | a s IH]; intros [ | b t];
    cbn -[lower_char same_letter]; try reflexivity.
  rewrite lower_char_same_letter, IH. now destruct (same_letter a b).
Qed.

Lemma toLowerCase_eq_iff (s t : string) :
  toLowerCase s = toLowerCase t <-> equal_up_to_case s t = true.
Proof.
  rewrite <- toLowerCase_equal_up_to_case. symmetry. apply String.eqb_eq.
Qed.

(** *** Quantities: [BigInt] reads back what the node writes *)

Lemma append_assoc (s t u : string) : (s ++ t) ++ u = s ++ (t ++ u).
Proof.
  induction s as [ | c s IH]; cbn; [reflexivity | now rewrite IH].
Qed.

Lemma digits_from_app base s t : forall acc,
  digits_from base (s ++ t) acc
  = match digits_from base s acc with
    | Some v => digits_from base t v
    | None => None
    end.
Proof.
  induction s as [ | c s IH]; intros acc; cbn -[digit_value]; [reflexivity | ].
  destruct (digit_value c) as [d | ]; [ | reflexivity].
  destruct (d <? base); [apply IH | reflexivity].
Qed.

Lemma hex_from_acc fuel : forall n acc,
  hex_from fuel n acc = hex_from fuel n "" ++ acc.
Proof.
  induction fuel as [ | fuel IH]; intros n acc; cbn -[hex_digit Z.modulo Z.div];
    [reflexivity | ].
  destruct (n <? 16); [reflexivity | ].
  rewrite (IH _ (String _ acc)), (IH _ (String _ "")), append_assoc.
  reflexivity.
Qed.

Lemma hex_digit_cases d :
  0 <= d < 16 ->
  digit_value (hex_digit d) = Some d /\ is_space (hex_digit d) = false.
Proof.
  intros H.
  assert (Hd : d = 0 \/ d = 1 \/ d = 2 \/ d = 3 \/ d = 4 \/ d = 5 \/ d = 6 \/ d = 7 \/
               d = 8 \/ d = 9 \/ d = 10 \/ d = 11 \/ d = 12 \/ d = 13 \/ d = 14 \/ d = 15)
    by lia.
  repeat (destruct Hd as [-> | Hd]; [split; reflexivity | ]).
  subst d; split; reflexivity.
Qed.

Lemma digits_from_hex fuel : forall n,
  0 <= n < 2 ^ Z.of_nat fuel ->
  digits_from 16 (hex_from fuel n "") 0 = Some n.
Proof.
  induction fuel as [ | fuel IH]; intros n Hn.
  - cbn in *. f_equal. lia.
  - cbn -[hex_digit Z.modulo Z.div digit_value].
    assert (Hmod : 0 <= n mod 16 < 16) by (apply Z.mod_pos_bound; lia).
    destruct (hex_digit_cases _ Hmod) as [Hd _].
    destruct (Z.ltb_spec n 16) as [Hlt | Hge].
    + cbn -[hex_digit Z.modulo digit_value]. rewrite Hd.
      destruct (Z.ltb_spec (n mod 16) 16); [ | lia].
      f_equal. rewrite Z.mod_small; lia.
    + rewrite hex_from_acc, digits_from_app, IH.
      * cbn -[hex_digit Z.modulo Z.div digit_value]. rewrite Hd.
        destruct (Z.ltb_spec (n mod 16) 16); [ | lia].
        f_equal. pose proof (Z.div_mod n 16). lia.
      * rewrite Nat2Z.inj_succ, Z.pow_succ_r in Hn by lia.
        split; [apply Z.div_pos; lia | ].
        apply Z.div_lt_upper_bound; lia.
Qed.

Lemma spaceless_hex fuel : forall n acc,
  0 <= n -> spaceless acc = true -> spaceless (hex_from fuel n acc) = true.
Proof.
  induction fuel as [ | fuel IH]; intros n acc Hn Hacc;
    cbn -[hex_digit Z.modulo Z.div is_space]; [exact Hacc | ].
  assert (Hmod : 0 <= n mod 16 < 16) by (apply Z.mod_pos_bound; lia).
  destruct (hex_digit_cases _ Hmod) as [_ Hs].
  destruct (n <? 16).
  - cbn -[hex_digit Z.modulo is_space]. now rewrite Hs, Hacc.
  - apply IH; [apply Z.div_pos; lia | ].
    cbn -[hex_digit Z.modulo is_space]. now rewrite Hs, Hacc.
Qed.

Lemma trim_end_spaceless s : spaceless s = true -> trim_end s = s.
Proof.
  induction s as [ | c s IH]; cbn -[is_space]; [reflexivity | ].
  intros H. apply andb_prop in H as [Hc Hs]. rewrite (IH Hs).
  apply negb_true_iff in Hc. rewrite Hc. now destruct s.
Qed.

Lemma hex_from_nonempty fuel n acc : hex_from (S fuel) n acc <> "".
Proof.
  rewrite hex_from_acc. cbn -[hex_digit Z.modulo Z.div].
  destruct (n <? 16); [discriminate | ].
  rewrite hex_from_acc. destruct (hex_from fuel (n / 16) ""); discriminate.
Qed.

Lemma StringToBigInt_quantity n : 0 <= n -> StringToBigInt (quantity n) = Some n.
Proof.
  intros Hn. unfold StringToBigInt, trim, quantity.
  change ("0x" ++ ?s) with (String "0" (String "x" s)).
  change (trim_start (String "0" ?s)) with (String "0" s).
  rewrite trim_end_spaceless.
  2:{ change (spaceless (String "0" (String "x" ?s))) with (spaceless s).
      apply spaceless_hex; auto. }
  cbv beta iota. unfold digits.
  pose proof (hex_from_nonempty (Z.to_nat (Z.log2 n)) n "") as Hne.
  destruct (hex_from (S (Z.to_nat (Z.log2 n))) n "") eqn:Hhex; [now destruct Hne | ].
  rewrite <- Hhex. apply digits_from_hex.
  split; [exact Hn | ].
  destruct (Z.eq_dec n 0) as [-> | Hnz]; [reflexivity | ].
  rewrite Nat2Z.inj_succ, Z2Nat.id by apply Z.log2_nonneg.
  apply Z.log2_spec. lia.
Qed.

(** Every non-negative amount, of any magnitude, is read back exactly from
    its hexadecimal encoding. *)
Lemma amount_quantity n : 0 <= n -> amount (JStr (quantity n)) = Normal n.
Proof.
  intros Hn. unfold amount, or_else. cbn [truthy].
  change (quantity n)
    with (String "0" (String "x" (hex_from (S (Z.to_nat (Z.log2 n))) n ""))).
  cbn [String.eqb negb Ascii.eqb].
  change (String "0" (String "x" (hex_from (S (Z.to_nat (Z.log2 n))) n "")))
    with (quantity n).
  cbn [BigInt]. now rewrite StringToBigInt_quantity.
Qed.

Lemma amount_of_absent_value :
  amount JUndefined = Normal 0 /\ amount JNull = Normal 0 /\ amount (JStr "") = Normal 0.
Proof. repeat split. Qed.

Lemma QUERY_PRICE_WEI_value :
  BigInt (JStr QUERY_PRICE_WEI_literal) = Normal QUERY_PRICE_WEI /\ QUERY_PRICE_WEI = 10 ^ 15.
Proof. split; reflexivity. Qed.

(** *** [verifyPayment] *)

Ltac run :=
  cbn -[get truthy is_string opt_toLowerCase BigInt or_else toLowerCase
        QUERY_PRICE_WEI Z.ltb].

Section Verifier.
Variable w : world.
Variables txHash expectedRecipient : string.

Lemma verifyPayment_never_throws :
  exists b, outcome (verifyPayment w txHash expectedRecipient) = Normal b.
Proof.
  unfold verifyPayment, try_catch.
  destruct (verifyPayment_try w txHash expectedRecipient) as [t [b | e]]; cbn; eauto.
Qed.

Lemma verifyPayment_catches e :
  outcome (verifyPayment_try w txHash expectedRecipient) = Throw e ->
  verifyPayment w txHash expectedRecipient
  = (trace (verifyPayment_try w txHash expectedRecipient), Normal false).
Proof.
  unfold verifyPayment, try_catch, outcome, trace.
  destruct (verifyPayment_try w txHash expectedRecipient) as [t [b | e']]; cbn; intros H.
  - discriminate.
  - now rewrite app_nil_r.
Qed.

(** Rejection at the receipt: one post, no second round trip. *)
Lemma verifyPayment_failed_receipt st :
  ReceiptResolves w txHash st -> is_string st "0x1" = false ->
  verifyPayment w txHash expectedRecipient = ([receipt_post txHash], Normal false).
Proof.
  intros [data receipt Hrpc Hres Htruthy Hst] Hne.
  unfold verifyPayment, verifyPayment_try, fetch.
  fold RECEIPT. rewrite Hrpc. run. rewrite Hres. run. rewrite Htruthy. run.
  rewrite Hst. run. rewrite Hne. reflexivity.
Qed.

(** Once both documents resolve, the verdict depends on [to] and [value]
    alone. *)
Lemma verifyPayment_resolved to value :
  ReceiptResolves w txHash (JStr "0x1") ->
  TransactionResolves w txHash to value ->
  verifyPayment w txHash expectedRecipient
  = ([receipt_post txHash; transaction_post txHash],
     Normal (match opt_toLowerCase to with
             | Normal txTo =>
                 is_string txTo (toLowerCase expectedRecipient) && verdict (amount value)
             | Throw _ => false
             end)).
Proof.
  intros [data receipt Hrpc Hres Htruthy Hst] [txData tx Hrpc' Hres' Htruthy' Hto Hval].
  unfold verifyPayment, verifyPayment_try, fetch.
  fold RECEIPT TRANSACTION. rewrite Hrpc. run. rewrite Hres. run. rewrite Htruthy. run.
  rewrite Hst. run. rewrite Hrpc'. run. rewrite Hres'. run. rewrite Htruthy'. run.
  rewrite Hto. run.
  destruct (opt_toLowerCase to) as [txTo | e]; run; [ | reflexivity].
  destruct (is_string txTo (toLowerCase expectedRecipient)); run; [ | reflexivity].
  rewrite Hval. run. unfold verdict, amount.
  destruct (BigInt (or_else value (JStr "0"))) as [paid | e]; run; [ | reflexivity].
  rewrite Z.leb_antisym. destruct (paid <? QUERY_PRICE_WEI); reflexivity.
Qed.

Lemma verifyPayment_true_inv :
  outcome (verifyPayment w txHash expectedRecipient) = Normal true ->
  Accepted w txHash expectedRecipient.
Proof.
  unfold verifyPayment, verifyPayment_try, fetch. fold RECEIPT TRANSACTION.
  destruct (rpc w RECEIPT txHash) as [ | [data | ]] eqn:Hrpc; run; try discriminate.
  destruct (get data "result") as [receipt | ] eqn:Hres; run; try discriminate.
  destruct (truthy receipt) eqn:Htruthy; run; try discriminate.
  destruct (get receipt "status") as [st | ] eqn:Hst; run; try discriminate.
  destruct (is_string st "0x1") eqn:Hok; run; try discriminate.
  destruct (rpc w TRANSACTION txHash) as [ | [txData | ]] eqn:Hrpc'; run; try discriminate.
  destruct (get txData "result") as [tx | ] eqn:Hres'; run; try discriminate.
  destruct (truthy tx) eqn:Htruthy'; run; try discriminate.
  destruct (get tx "to") as [to | ] eqn:Hto; run; try discriminate.
  destruct (opt_toLowerCase to) as [txTo | ] eqn:Hlow; run; try discriminate.
  destruct (is_string txTo (toLowerCase expectedRecipient)) eqn:Hsame; run;
    try discriminate.
  destruct (get tx "value") as [value | ] eqn:Hval; run; try discriminate.
  destruct (BigInt (or_else value (JStr "0"))) as [paid | ] eqn:Hpaid; run;
    try discriminate.
  destruct (paid <? QUERY_PRICE_WEI) eqn:Hlt; run; try discriminate.
  intros _.
  destruct st as [ | | | | s | | ]; try discriminate Hok.
  apply String.eqb_eq in Hok; subst s.
  destruct to as [ | | | | a | | ]; try discriminate Hlow;
    try (injection Hlow as <-; discriminate Hsame).
  injection Hlow as <-. cbn in Hsame. apply String.eqb_eq in Hsame.
  apply (accepted w txHash expectedRecipient a value paid); auto.
  - now apply (receipt_resolves w txHash _ data receipt).
  - now apply (transaction_resolves w txHash _ _ txData tx).
  - apply Z.ltb_ge in Hlt. exact Hlt.
Qed.

Lemma verifyPayment_accepted :
  Accepted w txHash expectedRecipient ->
  verifyPayment w txHash expectedRecipient
  = ([receipt_post txHash; transaction_post txHash], Normal true).
Proof.
  intros [to value paid Hr Ht Hsame Hpaid Hle].
  rewrite (verifyPayment_resolved _ _ Hr Ht).
  cbn -[toLowerCase amount verdict]. rewrite Hsame, String.eqb_refl, Hpaid.
  cbn -[QUERY_PRICE_WEI]. apply Z.leb_le in Hle. now rewrite Hle.
Qed.

Lemma rejected_unless_accepted :
  ~ Accepted w txHash expectedRecipient ->
  outcome (verifyPayment w txHash expectedRecipient) = Normal false.
Proof.
  intros Hn. destruct verifyPayment_never_throws as [[] Hb]; [ | exact Hb].
  now apply verifyPayment_true_inv in Hb.
Qed.

(** A verification posts to the ledger node and does nothing else. *)
Lemma verifyPayment_trace :
  forallb is_rpc_post (trace (verifyPayment w txHash expectedRecipient)) = true.
Proof.
  unfold verifyPayment, verifyPayment_try, fetch.
  destruct (rpc w "eth_getTransactionReceipt" txHash) as [ | [data | ]]; run;
    try reflexivity.
  destruct (get data "result") as [receipt | ]; run; try reflexivity.
  destruct (truthy receipt); run; try reflexivity.
  destruct (get receipt "status") as [st | ]; run; try reflexivity.
  destruct (is_string st "0x1"); run; try reflexivity.
  destruct (rpc w "eth_getTransactionByHash" txHash) as [ | [txData | ]]; run;
    try reflexivity.
  destruct (get txData "result") as [tx | ]; run; try reflexivity.
  destruct (truthy tx); run; try reflexivity.
  destruct (get tx "to") as [to | ]; run; try reflexivity.
  destruct (opt_toLowerCase to) as [txTo | ]; run; try reflexivity.
  destruct (is_string txTo (toLowerCase expectedRecipient)); run; try reflexivity.
  destruct (get tx "value") as [value | ]; run; try reflexivity.
  destruct (BigInt (or_else value (JStr "0"))) as [paid | ]; run; try reflexivity.
  destruct (paid <? QUERY_PRICE_WEI); reflexivity.
Qed.

(** A verification always begins with the receipt post. *)
Lemma verifyPayment_posts_first :
  exists t, trace (verifyPayment w txHash expectedRecipient) = receipt_post txHash :: t.
Proof.
  unfold verifyPayment, try_catch.
  assert (H : exists t, trace (verifyPayment_try w txHash expectedRecipient)
                        = receipt_post txHash :: t).
  { unfold verifyPayment_try. apply trace_bind_cons with (t := []).
    unfold fetch. now destruct (rpc w "eth_getTransactionReceipt" txHash) as [ | []]. }
  destruct H as [t Ht].
  destruct (verifyPayment_try w txHash expectedRecipient) as [t0 [b | e]];
    cbn in Ht; subst t0; cbn; eauto.
Qed.

(** The failures of the ledger node, one by one. *)

Lemma transport_error_is_rejected :
  rpc w RECEIPT txHash = Unreachable \/ rpc w TRANSACTION txHash = Unreachable ->
  outcome (verifyPayment w txHash expectedRecipient) = Normal false.
Proof.
  intros H. apply rejected_unless_accepted.
  intros [to value paid [data receipt H1 _ _ _] [txData tx H2 _ _ _ _] _ _ _].
  destruct H; congruence.
Qed.

Lemma malformed_json_is_rejected :
  rpc w RECEIPT txHash = Replied None \/ rpc w TRANSACTION txHash = Replied None ->
  outcome (verifyPayment w txHash expectedRecipient) = Normal false.
Proof.
  intros H. apply rejected_unless_accepted.
  intros [to value paid [data receipt H1 _ _ _] [txData tx H2 _ _ _ _] _ _ _].
  destruct H; congruence.
Qed.

(** A reply that is [null], or whose [result] is absent, [null] or
    otherwise falsy. *)
Lemma missing_result_is_rejected method data :
  method = RECEIPT \/ method = TRANSACTION ->
  rpc w method txHash = Replied (Some data) ->
  (forall result, get data "result" = Normal result -> truthy result = false) ->
  outcome (verifyPayment w txHash expectedRecipient) = Normal false.
Proof.
  intros Hm Hrpc Hres. apply rejected_unless_accepted.
  intros [to value paid [data1 receipt H1 H2 H3 _] [txData tx H4 H5 H6 _ _] _ _ _].
  destruct Hm; subst method.
  - assert (data1 = data) by congruence. subst data1.
    apply Hres in H2. congruence.
  - assert (txData = data) by congruence. subst txData.
    apply Hres in H5. congruence.
Qed.

(** A [to] member that is absent, [null] or not a string. *)
Lemma malformed_recipient_is_rejected to value :
  TransactionResolves w txHash to value ->
  is_text to = false ->
  outcome (verifyPayment w txHash expectedRecipient) = Normal false.
Proof.
  intros [txData tx H1 H2 H3 H4 H5] Hto. apply rejected_unless_accepted.
  intros [to' value' paid _ [txData' tx' H1' H2' H3' H4' H5'] _ _ _].
  assert (txData' = txData) by congruence. subst txData'.
  assert (tx' = tx) by congruence. subst tx'.
  assert (to = JStr to') by congruence. subst to. discriminate Hto.
Qed.

(** A [value] member that [BigInt] cannot convert. *)
Lemma unconvertible_value_is_rejected to value e :
  TransactionResolves w txHash to value ->
  amount value = Throw e ->
  outcome (verifyPayment w txHash expectedRecipient) = Normal false.
Proof.
  intros [txData tx H1 H2 H3 H4 H5] Hv. apply rejected_unless_accepted.
  intros [to' value' paid _ [txData' tx' H1' H2' H3' H4' H5'] _ Hpaid _].
  assert (txData' = txData) by congruence. subst txData'.
  assert (tx' = tx) by congruence. subst tx'.
  assert (value' = value) by congruence. subst value'. congruence.
Qed.
End Verifier.

(** The sample node resolves what it was built with. *)
Lemma node_receipt st to value txHash :
  ReceiptResolves (world_of st to value) txHash st.
Proof. econstructor; reflexivity. Qed.

Lemma node_transaction st to value txHash :
  TransactionResolves (world_of st to value) txHash to value.
Proof. econstructor; reflexivity. Qed.

(** *** [POST] *)

Section Gate.
Variable w : world.
Variable req : request.

Lemma POST_never_throws : exists r, outcome (POST w req) = Normal r.
Proof.
  unfold POST, try_catch. destruct (POST_try w req) as [t [r | e]]; cbn; eauto.
Qed.

Lemma POST_unconfigured :
  provided (SERVER_WALLET w) = false -> POST w req = ([], Normal configuration_error).
Proof.
  intros H. unfold POST, POST_try. now rewrite H.
Qed.

Lemma POST_challenge :
  provided (SERVER_WALLET w) = true -> provided (x_payment req) = false ->
  POST w req = ([], Normal (challenge w (held (SERVER_WALLET w)))).
Proof.
  intros H H'. unfold POST, POST_try. now rewrite H, H'.
Qed.

Lemma POST_rejected :
  provided (SERVER_WALLET w) = true -> provided (x_payment req) = true ->
  outcome (verifyPayment w (held (x_payment req)) (held (SERVER_WALLET w))) = Normal false ->
  POST w req
  = (trace (verifyPayment w (held (x_payment req)) (held (SERVER_WALLET w))), Normal rejection).
Proof.
  intros H H'. unfold POST, POST_try. rewrite H, H'. cbn [negb].
  destruct (verifyPayment w _ _) as [t [[] | e]]; cbn; try discriminate.
  intros _. now rewrite !app_nil_r.
Qed.

(** A 500 comes from the configuration test or from the stage after
    admission. *)
Lemma POST_500_inv r :
  outcome (POST w req) = Normal r -> status r = 500 ->
  provided (SERVER_WALLET w) = false \/ Accepted w (held (x_payment req)) (held (SERVER_WALLET w)).
Proof.
  intros Hr Hs.
  destruct (provided (SERVER_WALLET w)) eqn:Hw; [right | now left].
  destruct (provided (x_payment req)) eqn:Hp.
  - destruct (verifyPayment_never_throws w (held (x_payment req)) (held (SERVER_WALLET w)))
      as [[] Hb].
    + now apply verifyPayment_true_inv.
    + rewrite (POST_rejected Hw Hp Hb) in Hr. injection Hr as <-. discriminate Hs.
  - rewrite (POST_challenge Hw Hp) in Hr. injection Hr as <-. discriminate Hs.
Qed.

Lemma outcome_request_json doc :
  outcome (request_json req) = Normal doc -> payload req = Some doc.
Proof.
  unfold request_json. destruct (payload req); cbn; congruence.
Qed.

Lemma in_trace_streamText sel cm sys model msgs system :
  In (StreamText model msgs system) (trace (streamText w sel cm sys)) ->
  model = sel /\ msgs = cm /\ system = sys.
Proof.
  unfold streamText. destruct (stream_fault w sel cm); cbn;
    intros [H | []]; injection H as <- <- <-; auto.
Qed.

(** What a request that reaches the completion capability went through. *)
Lemma POST_stream_inv model msgs system :
  In (StreamText model msgs system) (trace (POST w req)) ->
  Accepted w (held (x_payment req)) (held (SERVER_WALLET w)) /\
  exists doc items,
    payload req = Some doc /\
    messages_of doc = Normal (JArr items) /\
    cbind (get doc "model") getGoogleModel = Normal model /\
    map_messages items = Normal msgs /\
    system = SYSTEM_PROMPT.
Proof.
  unfold POST. intros H.
  apply in_trace_try_catch in H as [H | (e & _ & [])].
  unfold POST_try in H.
  destruct (provided (SERVER_WALLET w)); cbn [negb] in H; [ | destruct H].
  destruct (provided (x_payment req)); cbn [negb] in H; [ | destruct H].
  apply in_trace_bind in H as [H | (isValid & Hvalid & H)].
  { exfalso. revert H. apply not_in_rpc_posts; [apply verifyPayment_trace | reflexivity]. }
  destruct isValid; cbn [negb] in H; [ | destruct H].
  apply verifyPayment_true_inv in Hvalid. split; [exact Hvalid | ].
  apply in_trace_bind in H as [H | (doc & Hdoc & H)].
  { unfold request_json in H. destruct (payload req); cbn in H; intuition discriminate. }
  apply outcome_request_json in Hdoc.
  apply in_trace_bind in H as [[] | (ms & Hms & H)]. rewrite outcome_lift in Hms.
  apply in_trace_bind in H as [[] | (md & Hmd & H)]. rewrite outcome_lift in Hmd.
  apply in_trace_bind in H as [[] | (sel & Hsel & H)]. rewrite outcome_lift in Hsel.
  assert (Hitems : forall items,
    match ms with JUndefined => JArr [] | _ => ms end = JArr items ->
    In (StreamText model msgs system)
       (trace (coreMessages <- lift (map_messages items) ;;
               result <- streamText w sel coreMessages SYSTEM_PROMPT ;;
               ret (mkResponse 200
                      [ ("X-Payment-Receipt",
                         Stringify (JObj [ ("txHash", JStr (held (x_payment req)));
                                           ("verified", JBool true) ])) ]
                      result))) ->
    exists doc0 items0,
      payload req = Some doc0 /\ messages_of doc0 = Normal (JArr items0) /\
      cbind (get doc0 "model") getGoogleModel = Normal model /\
      map_messages items0 = Normal msgs /\ system = SYSTEM_PROMPT).
  { intros items Hitems Hin.
    apply in_trace_bind in Hin as [[] | (cm & Hcm & Hin)]. rewrite outcome_lift in Hcm.
    apply in_trace_bind in Hin as [Hin | (res & _ & [])].
    apply in_trace_streamText in Hin as (-> & -> & ->).
    exists doc, items. unfold messages_of. rewrite Hms, Hmd. cbn [cbind].
    rewrite Hitems. auto. }
  destruct ms; try (now apply (Hitems _ eq_refl)); destruct H.
Qed.
End Gate.

Lemma map_messages_pointwise items : forall msgs,
  map_messages items = Normal msgs ->
  Forall2 (fun item m => get item "role" = Normal (role m) /\
                         get item "content" = Normal (content m)) items msgs.
Proof.
  induction items as [ | item items IH]; cbn -[get]; intros msgs H.
  - injection H as <-. constructor.
  - destruct (get item "role") as [r | ] eqn:Hr; cbn -[get] in H; try discriminate.
    destruct (get item "content") as [c | ] eqn:Hc; cbn -[get] in H; try discriminate.
    destruct (map_messages items) as [ms | ]; cbn in H; try discriminate.
    injection H as <-. constructor; auto.
Qed.

(** The admitted path, given what the mapping of the messages returns. *)
Lemma POST_admitted w req doc items msgs model :
  provided (SERVER_WALLET w) = true ->
  provided (x_payment req) = true ->
  Accepted w (held (x_payment req)) (held (SERVER_WALLET w)) ->
  payload req = Some doc ->
  messages_of doc = Normal (JArr items) ->
  cbind (get doc "model") getGoogleModel = Normal model ->
  map_messages items = Normal msgs ->
  stream_fault w model msgs = None ->
  POST w req
  = ([ receipt_post (held (x_payment req)); transaction_post (held (x_payment req));
       ReadBody; StreamText model msgs SYSTEM_PROMPT ],
     Normal (mkResponse 200
               [ ("X-Payment-Receipt",
                  Stringify (JObj [ ("txHash", JStr (held (x_payment req)));
                                    ("verified", JBool true) ])) ]
               (TextStream model msgs))).
Proof.
  intros Hw Hp Hacc Hdoc Hms Hmodel Hmap Hok.
  unfold POST, POST_try. rewrite Hw, Hp. cbn [negb].
  rewrite (verifyPayment_accepted _ _ _ Hacc).
  unfold request_json. rewrite Hdoc. unfold messages_of in Hms.
  cbn -[get getGoogleModel map_messages].
  destruct (get doc "messages") as [ms | ]; [ | discriminate Hms].
  destruct (get doc "model") as [md | ]; [ | discriminate Hmodel].
  cbn [cbind] in Hms, Hmodel. injection Hms as Hms.
  rewrite Hmodel, Hms, Hmap.
  unfold streamText. cbn. rewrite Hok. reflexivity.
Qed.

(** *** [getGoogleModel] *)

Lemma getGoogleModel_text_never_throws id :
  exists m, getGoogleModel (JStr id) = Normal m.
Proof. unfold getGoogleModel. cbn. eauto. Qed.

Lemma getGoogleModel_recognized id :
  In id RECOGNIZED -> getGoogleModel (JStr id) = Normal (google id).
Proof.
  intros [<- | [<- | [<- | []]]]; reflexivity.
Qed.

(** Outside the recognized identifiers and the names inherited from
    [Object.prototype], every string falls back to the default model. *)
Lemma getGoogleModel_default id :
  ~ In id RECOGNIZED -> mem id object_prototype_names = false ->
  getGoogleModel (JStr id) = Normal (google "gemini-2.5-flash").
Proof.
  intros Hid Hproto. unfold getGoogleModel, models_at. cbn [to_string cbind].
  rewrite Hproto. unfold models, own.
  destruct (String.eqb_spec id "gemini-2.5-flash") as [-> | _]; [now destruct Hid; left | ].
  destruct (String.eqb_spec id "gemini-2.0-flash") as [-> | _];
    [now destruct Hid; right; left | ].
  destruct (String.eqb_spec id "gemini-1.5-pro") as [-> | _];
    [now destruct Hid; right; right; left | ].
  reflexivity.
Qed.

(** An absent [model] member is looked up under the key [undefined]. *)
Lemma getGoogleModel_absent :
  getGoogleModel JUndefined = Normal (google "gemini-2.5-flash").
Proof. reflexivity. Qed.

(** ** The claims *)

(** *** Payment Verifier *)

(** C1, as the specification words it, fails on the code: a transaction
    whose [value] member is a JSON number instead of a string does not pass
    the field-by-field type check, and [verifyPayment] accepts it, because
    [BigInt] converts an integral number. *)
Lemma numeric_value_is_accepted :
  transaction_well_typed (rpc numeric_world TRANSACTION HASH) = false /\
  outcome (verifyPayment numeric_world HASH WALLET) = Normal true.
Proof. split; reflexivity. Qed.

(** C1 (amended). [verifyPayment] fails closed. It returns [true] exactly on
    the proofs described by [Accepted] and [false] on every other one: a
    transport error, malformed JSON, a [null] reply, an absent, [null] or
    falsy [result], a [status] other than the string 0x1, a [to] that is
    absent or not a string, a [value] that [BigInt] cannot convert or that
    converts below the price (see [transport_error_is_rejected] and the
    lemmas after it). An exception thrown inside the [try] block becomes
    [false]; and [POST] answers 500 only when the recipient configuration is
    missing or after the proof was accepted, never because verification
    failed. A [value] of another type than string is not rejected for its
    type. *)
Theorem verifyPayment_fails_closed (w : world) (txHash expectedRecipient : string) :
  (outcome (verifyPayment w txHash expectedRecipient) = Normal true
   <-> Accepted w txHash expectedRecipient) /\
  (outcome (verifyPayment w txHash expectedRecipient) = Normal false
   <-> ~ Accepted w txHash expectedRecipient) /\
  (forall e, outcome (verifyPayment_try w txHash expectedRecipient) = Throw e ->
             outcome (verifyPayment w txHash expectedRecipient) = Normal false) /\
  (forall req r, outcome (POST w req) = Normal r -> status r = 500 ->
     provided (SERVER_WALLET w) = false \/
     Accepted w (held (x_payment req)) (held (SERVER_WALLET w))).
Proof.
  assert (Htrue : outcome (verifyPayment w txHash expectedRecipient) = Normal true
                  <-> Accepted w txHash expectedRecipient).
  { split; [apply verifyPayment_true_inv | ].
    intros H. now rewrite (verifyPayment_accepted _ _ _ H). }
  repeat split.
  - apply Htrue.
  - apply Htrue.
  - intros Hf Hacc. apply Htrue in Hacc. congruence.
  - apply rejected_unless_accepted.
  - intros e He. now rewrite (verifyPayment_catches _ _ _ _ He).
  - apply POST_500_inv.
Qed.

(** C2. When the receipt reports success and the recipient matches up to
    case, the verdict is the comparison of the parsed value with the price
    of 10^15 base units: one unit less is rejected, the exact price and any
    larger amount are accepted. An absent or empty value counts as zero.
    The comparison is on unbounded integers; [amount_quantity] shows that
    every magnitude is read back exactly from its hexadecimal encoding. *)
Theorem payment_threshold (w : world) (txHash expectedRecipient to : string)
    (value : jsval) (paid : Z) :
  ReceiptResolves w txHash (JStr "0x1") ->
  TransactionResolves w txHash (JStr to) value ->
  equal_up_to_case to expectedRecipient = true ->
  amount value = Normal paid ->
  QUERY_PRICE_WEI = 10 ^ 15 /\
  amount JUndefined = Normal 0 /\ amount (JStr "") = Normal 0 /\
  (paid < QUERY_PRICE_WEI ->
     outcome (verifyPayment w txHash expectedRecipient) = Normal false) /\
  (paid = QUERY_PRICE_WEI ->
     outcome (verifyPayment w txHash expectedRecipient) = Normal true) /\
  (paid > QUERY_PRICE_WEI ->
     outcome (verifyPayment w txHash expectedRecipient) = Normal true).
Proof.
  intros Hr Ht Hcase Hpaid.
  rewrite (verifyPayment_resolved _ _ expectedRecipient _ _ Hr Ht).
  cbn [opt_toLowerCase is_string outcome snd].
  rewrite toLowerCase_equal_up_to_case, Hcase, Hpaid. cbn [andb verdict].
  repeat split; try reflexivity; intros H; f_equal.
  - apply Z.leb_gt. exact H.
  - apply Z.leb_le. lia.
  - apply Z.leb_le. lia.
Qed.

Lemma payment_threshold_exact :
  amount (JStr "0x38d7ea4c68000") = Normal QUERY_PRICE_WEI /\
  outcome (verifyPayment paid_world HASH WALLET) = Normal true.
Proof.
  split; [reflexivity | ].
  refine (proj1 (proj2 (proj2 (proj2 (proj2
    (payment_threshold paid_world HASH WALLET (toLowerCase WALLET)
       (JStr "0x38d7ea4c68000") QUERY_PRICE_WEI _ _ _ _))))) eq_refl).
  - apply (node_receipt (JStr "0x1")).
  - apply (node_transaction (JStr "0x1") (JStr (toLowerCase WALLET))).
  - reflexivity.
  - reflexivity.
Defined.

(** The three amounts around the threshold and the largest 256-bit value,
    each sent as the node encodes it. *)
Lemma payment_threshold_samples :
  let verdict_on n :=
    outcome (verifyPayment (world_of (JStr "0x1") (JStr WALLET) (JStr (quantity n)))
                           HASH WALLET) in
  verdict_on (10 ^ 15 - 1) = Normal false /\
  verdict_on (10 ^ 15) = Normal true /\
  verdict_on (10 ^ 15 + 1) = Normal true /\
  verdict_on (2 ^ 256 - 1) = Normal true.
Proof. vm_compute. repeat split. Qed.

(** C3. Given a successful receipt and a sufficient value, the proof is
    accepted exactly when [to] is a string that differs from the expected
    recipient by letter case only (or not at all); a recipient differing in
    any other way, and a [to] that is not a string, are rejected. *)
Theorem recipient_matched_up_to_case (w : world) (txHash expectedRecipient : string)
    (to value : jsval) (paid : Z) :
  ReceiptResolves w txHash (JStr "0x1") ->
  TransactionResolves w txHash to value ->
  amount value = Normal paid ->
  QUERY_PRICE_WEI <= paid ->
  outcome (verifyPayment w txHash expectedRecipient)
  = Normal (match to with
            | JStr address => equal_up_to_case address expectedRecipient
            | _ => false
            end).
Proof.
  intros Hr Ht Hpaid Hle.
  rewrite (verifyPayment_resolved _ _ expectedRecipient _ _ Hr Ht).
  rewrite Hpaid. cbn [verdict outcome snd]. apply Z.leb_le in Hle. rewrite Hle.
  destruct to; cbn [opt_toLowerCase is_string]; try reflexivity.
  now rewrite toLowerCase_equal_up_to_case, andb_true_r.
Qed.

Lemma recipient_matched_up_to_case_sample :
  equal_up_to_case "0xabc0000000000000000000000000000000000123" WALLET = true /\
  outcome (verifyPayment paid_world HASH WALLET) = Normal true.
Proof.
  split; [reflexivity | ].
  apply (recipient_matched_up_to_case paid_world HASH WALLET
           (JStr "0xabc0000000000000000000000000000000000123")
           (JStr "0x38d7ea4c68000") QUERY_PRICE_WEI).
  - apply (node_receipt (JStr "0x1")).
  - apply (node_transaction (JStr "0x1") (JStr (toLowerCase WALLET))).
  - reflexivity.
  - vm_compute. discriminate.
Defined.

(** C6. When the receipt resolves and its [status] is anything but the
    string 0x1 (absent, a number, a boolean, another spelling such as 0x01),
    [verifyPayment] returns [false], after the first post only. *)
Theorem other_status_is_rejected (w : world) (txHash expectedRecipient : string)
    (status_field : jsval) :
  ReceiptResolves w txHash status_field ->
  status_field <> JStr "0x1" ->
  verifyPayment w txHash expectedRecipient = ([receipt_post txHash], Normal false).
Proof.
  intros Hr Hne. apply (verifyPayment_failed_receipt _ _ _ _ Hr).
  destruct status_field as [ | | | | s | | ]; try reflexivity.
  cbn. apply String.eqb_neq. congruence.
Qed.

Lemma other_status_is_rejected_sample :
  verifyPayment padded_status_world HASH WALLET = ([receipt_post HASH], Normal false).
Proof.
  apply (other_status_is_rejected padded_status_world HASH WALLET (JStr "0x01")).
  - apply (node_receipt (JStr "0x01")).
  - discriminate.
Defined.

(** *** Request Gate *)

(** C7. Without a recipient address ([SERVER_WALLET] unset or empty) every
    request, with or without a proof header, is answered 500 with an error
    body; nothing is posted to the ledger node and no challenge is built. The
    answer depends on the configuration alone, so repeating the request
    cannot change it. *)
Theorem missing_recipient_is_500 (w : world) (req : request) :
  provided (SERVER_WALLET w) = false ->
  POST w req = ([], Normal configuration_error) /\
  status configuration_error = 500 /\
  content_of configuration_error
    = Json (JObj [ ("error", JStr "Server configuration error") ]).
Proof.
  intros Hw. now rewrite (POST_unconfigured w req Hw).
Qed.

Lemma missing_recipient_is_500_sample :
  POST unconfigured_world chat_request = ([], Normal configuration_error) /\
  status configuration_error = 500 /\
  content_of configuration_error
    = Json (JObj [ ("error", JStr "Server configuration error") ]).
Proof.
  exact (missing_recipient_is_500 unconfigured_world chat_request eq_refl).
Defined.

(** C5. A request without proof header, the recipient being configured, is
    answered 402 with a body whose [accepts] list has exactly one element;
    its [maxAmountRequired] is the price in base units, the decimal string
    1000000000000000, and its [network] is eip155:10143. *)
Theorem missing_proof_is_challenged (w : world) (req : request) :
  provided (SERVER_WALLET w) = true ->
  x_payment req = None ->
  let requirement := payment_requirement w (held (SERVER_WALLET w)) in
  exists doc,
    POST w req = ([], Normal (mkResponse 402 json_headers (Json doc))) /\
    get doc "accepts" = Normal (JArr [requirement]) /\
    List.length [requirement] = 1%nat /\
    get requirement "maxAmountRequired" = Normal (JStr (bigint_toString QUERY_PRICE_WEI)) /\
    bigint_toString QUERY_PRICE_WEI = "1000000000000000" /\
    get requirement "network" = Normal (JStr "eip155:10143").
Proof.
  intros Hw Hp requirement.
  rewrite (POST_challenge w req Hw) by now rewrite Hp.
  eexists. split; [reflexivity | ]. repeat split.
Qed.

Lemma missing_proof_is_challenged_sample :
  exists doc,
    POST paid_world (mkRequest None None)
      = ([], Normal (mkResponse 402 json_headers (Json doc))) /\
    get doc "accepts" = Normal (JArr [payment_requirement paid_world WALLET]) /\
    List.length [payment_requirement paid_world WALLET] = 1%nat /\
    get (payment_requirement paid_world WALLET) "maxAmountRequired"
      = Normal (JStr (bigint_toString QUERY_PRICE_WEI)) /\
    bigint_toString QUERY_PRICE_WEI = "1000000000000000" /\
    get (payment_requirement paid_world WALLET) "network" = Normal (JStr "eip155:10143").
Proof.
  exact (missing_proof_is_challenged paid_world (mkRequest None None) eq_refl eq_refl).
Defined.


(** C4. When the proof header is present and the verifier rejects it, the
    answer is 402 with the body [{x402Version: 1, error: <message>}]. The
    handler performed the posts of the verification and nothing else: the
    request body was not read and the completion capability was not called.
    The challenge has the same status and another body. *)
Theorem rejected_proof_gets_402 (w : world) (req : request) :
  provided (SERVER_WALLET w) = true ->
  provided (x_payment req) = true ->
  outcome (verifyPayment w (held (x_payment req)) (held (SERVER_WALLET w))) = Normal false ->
  outcome (POST w req) = Normal rejection /\
  status rejection = 402 /\
  content_of rejection
    = Json (JObj [ ("x402Version", number 1); ("error", JStr VERIFICATION_FAILED) ]) /\
  trace (POST w req)
    = trace (verifyPayment w (held (x_payment req)) (held (SERVER_WALLET w))) /\
  existsb is_completion_event (trace (POST w req)) = false /\
  status (challenge w (held (SERVER_WALLET w))) = status rejection /\
  content_of (challenge w (held (SERVER_WALLET w))) <> content_of rejection.
Proof.
  intros Hw Hp Hv. rewrite (POST_rejected w req Hw Hp Hv). cbn [outcome trace fst snd].
  repeat split; try reflexivity; [ | discriminate].
  apply rpc_posts_are_not_completion, verifyPayment_trace.
Qed.

Lemma rejected_proof_gets_402_sample :
  outcome (POST reverted_world chat_request) = Normal rejection /\
  trace (POST reverted_world chat_request) = [receipt_post HASH].
Proof.
  pose proof (rejected_proof_gets_402 reverted_world chat_request eq_refl eq_refl eq_refl)
    as (Hout & _ & _ & Htrace & _).
  split; [exact Hout | exact Htrace].
Defined.

(** *** Completion Relay *)

(** C8, as stated, fails on the code: with a valid proof, a body without
    [messages] reaches the completion capability with the empty sequence, and
    a message whose role is outside the enumerated set is passed on as it
    is. *)
Lemma completion_called_with_unchecked_messages :
  trace (POST paid_world bare_request)
    = [ receipt_post HASH; transaction_post HASH; ReadBody;
        StreamText (google "gemini-2.5-flash") [] SYSTEM_PROMPT ] /\
  trace (POST paid_world narrator_request)
    = [ receipt_post HASH; transaction_post HASH; ReadBody;
        StreamText (google "gemini-2.5-flash")
                   [ mkMessage (JStr "narrator") (JStr "Hello") ] SYSTEM_PROMPT ] /\
  enumerated_role (JStr "narrator") = false.
Proof. repeat split. Qed.

(** C8 (amended). Whenever the completion capability is called, the proof
    was accepted, the [messages] member of the request body (the empty array
    when absent) is an array, and the sequence passed on has one message per
    element of it, in order, each with the [role] and [content] read from
    that element. The sequence may be empty and the roles are not checked. *)
Theorem completion_receives_request_messages (w : world) (req : request)
    (model : model_handle) (msgs : list core_message) (system : string) :
  In (StreamText model msgs system) (trace (POST w req)) ->
  Accepted w (held (x_payment req)) (held (SERVER_WALLET w)) /\
  exists doc items,
    payload req = Some doc /\
    messages_of doc = Normal (JArr items) /\
    Forall2 (fun item m => get item "role" = Normal (role m) /\
                           get item "content" = Normal (content m)) items msgs.
Proof.
  intros H.
  apply POST_stream_inv in H as (Hacc & doc & items & Hdoc & Hitems & _ & Hmap & _).
  split; [exact Hacc | ]. exists doc, items. repeat split; auto.
  now apply map_messages_pointwise.
Qed.

Lemma completion_receives_request_messages_sample :
  Accepted paid_world HASH WALLET /\
  exists doc items,
    payload chat_request = Some doc /\
    messages_of doc = Normal (JArr items) /\
    Forall2 (fun item m => get item "role" = Normal (role m) /\
                           get item "content" = Normal (content m))
            items [ mkMessage (JStr "user") (JStr "Hello") ].
Proof.
  apply (completion_receives_request_messages paid_world chat_request
           (google "gemini-2.0-flash") [ mkMessage (JStr "user") (JStr "Hello") ]
           SYSTEM_PROMPT).
  vm_compute. right; right; right; left; reflexivity.
Defined.

(** C9, at the failing input. The identifier [constructor] is not one of the
    recognized ones, yet [models["constructor"]] finds the member that
    [models] inherits from [Object.prototype]; it is truthy, so it is
    returned in place of the default model, and the route calls the
    completion capability with it, whatever that capability then does. *)
Theorem getGoogleModel_returns_inherited_member
    (fault : model_handle -> list core_message -> option exn) :
  mem "constructor" RECOGNIZED = false /\
  getGoogleModel (JStr "constructor") = Normal (Inherited "constructor") /\
  trace (POST (Cases.paid_world_with fault) constructor_request)
    = [ receipt_post HASH; transaction_post HASH; ReadBody;
        StreamText (Inherited "constructor") [ mkMessage (JStr "user") (JStr "Hello") ]
                   SYSTEM_PROMPT ].
Proof.
  repeat split.
  vm_compute.
  match goal with |- context [fault ?m ?l] => now destruct (fault m l) end.
Qed.

(** ** Further properties of the route *)

Import Cases.

Lemma Normal_inj {A : Type} (a b : A) : Normal a = Normal b -> a = b.
Proof. intros H. now injection H. Qed.

Lemma append_nil_r (s : string) : s ++ "" = s.
Proof. induction s as [ | c s IH]; cbn; [reflexivity | now rewrite IH]. Qed.

Lemma paid_world_accepts : Accepted paid_world HASH WALLET.
Proof.
  apply (accepted paid_world HASH WALLET (toLowerCase WALLET) (JStr "0x38d7ea4c68000")
           QUERY_PRICE_WEI); try reflexivity.
  - apply (node_receipt (JStr "0x1")).
  - apply (node_transaction (JStr "0x1") (JStr (toLowerCase WALLET))).
Qed.

Lemma failing_world_accepts : Accepted failing_world HASH WALLET.
Proof.
  apply (accepted failing_world HASH WALLET (toLowerCase WALLET) (JStr "0x38d7ea4c68000")
           QUERY_PRICE_WEI); try reflexivity; econstructor; reflexivity.
Qed.

(** X1. A verification posts the receipt query first and at most one more
    query, the transaction; the second post is made only when the receipt
    resolved with status 0x1. *)
Theorem verifyPayment_posts (w : world) (txHash expectedRecipient : string) :
  trace (verifyPayment w txHash expectedRecipient) = [receipt_post txHash] \/
  (trace (verifyPayment w txHash expectedRecipient)
     = [receipt_post txHash; transaction_post txHash] /\
   ReceiptResolves w txHash (JStr "0x1")).
Proof.
  unfold verifyPayment, verifyPayment_try, fetch. fold RECEIPT TRANSACTION.
  destruct (rpc w RECEIPT txHash) as [ | [data | ]] eqn:Hrpc; run; auto.
  destruct (get data "result") as [receipt | ] eqn:Hres; run; auto.
  destruct (truthy receipt) eqn:Htruthy; run; auto.
  destruct (get receipt "status") as [st | ] eqn:Hst; run; auto.
  destruct (is_string st "0x1") eqn:Hok; run; auto.
  assert (Hr : ReceiptResolves w txHash (JStr "0x1")).
  { destruct st as [ | | | | s | | ]; try discriminate Hok.
    apply String.eqb_eq in Hok; subst s.
    now apply (receipt_resolves w txHash _ data receipt). }
  right. split; [ | exact Hr].
  destruct (rpc w TRANSACTION txHash) as [ | [txData | ]]; run; auto.
  destruct (get txData "result") as [tx | ]; run; auto.
  destruct (truthy tx); run; auto.
  destruct (get tx "to") as [to | ]; run; auto.
  destruct (opt_toLowerCase to) as [txTo | ]; run; auto.
  destruct (is_string txTo (toLowerCase expectedRecipient)); run; auto.
  destruct (get tx "value") as [value | ]; run; auto.
  destruct (BigInt (or_else value (JStr "0"))) as [paid | ]; run; auto.
  destruct (paid <? QUERY_PRICE_WEI); reflexivity.
Qed.

(** X2. The letter case in which the expected recipient is written does not
    matter: two spellings that differ by case only give the same
    verification, events included. *)
Theorem recipient_case_is_irrelevant (w : world) (txHash recipient recipient' : string) :
  equal_up_to_case recipient recipient' = true ->
  verifyPayment w txHash recipient = verifyPayment w txHash recipient'.
Proof.
  intros H. apply toLowerCase_eq_iff in H.
  unfold verifyPayment, verifyPayment_try. now rewrite H.
Qed.

Lemma recipient_case_is_irrelevant_sample :
  verifyPayment paid_world HASH WALLET = verifyPayment paid_world HASH (toLowerCase WALLET).
Proof.
  apply (recipient_case_is_irrelevant paid_world HASH WALLET (toLowerCase WALLET)).
  reflexivity.
Defined.

(** X3. When the node reports the value as a hexadecimal quantity, the
    verdict is the threshold test on the encoded amount, whatever its
    magnitude: [true] exactly when the amount is at least the price. *)
Theorem quantity_verdict (w : world) (txHash expectedRecipient to : string) (n : Z) :
  0 <= n ->
  ReceiptResolves w txHash (JStr "0x1") ->
  TransactionResolves w txHash (JStr to) (JStr (quantity n)) ->
  equal_up_to_case to expectedRecipient = true ->
  verifyPayment w txHash expectedRecipient
  = ([receipt_post txHash; transaction_post txHash], Normal (QUERY_PRICE_WEI <=? n)).
Proof.
  intros Hn Hr Ht Hcase.
  rewrite (verifyPayment_resolved _ _ expectedRecipient _ _ Hr Ht).
  cbn [opt_toLowerCase is_string].
  rewrite toLowerCase_equal_up_to_case, Hcase, (amount_quantity n Hn). reflexivity.
Qed.

Lemma quantity_verdict_sample :
  verifyPayment (world_of (JStr "0x1") (JStr WALLET) (JStr (quantity (2 ^ 256 - 1))))
                HASH WALLET
  = ([receipt_post HASH; transaction_post HASH], Normal (QUERY_PRICE_WEI <=? 2 ^ 256 - 1)).
Proof.
  apply (quantity_verdict _ HASH WALLET WALLET (2 ^ 256 - 1)).
  - vm_compute. discriminate.
  - apply (node_receipt (JStr "0x1")).
  - apply (node_transaction (JStr "0x1") (JStr WALLET)).
  - reflexivity.
Defined.

(** X4. The challenge and the verifier agree: for a successful transaction,
    the verdict is [true] exactly when its recipient equals the [payTo] of
    the challenge up to case and its amount is at least the
    [maxAmountRequired] of the challenge, read by [BigInt]. *)
Theorem challenge_terms_decide_acceptance (w : world)
    (recipient txHash payTo price to : string) (value : jsval) (required paid : Z) :
  let requirement := payment_requirement w recipient in
  get requirement "payTo" = Normal (JStr payTo) ->
  get requirement "maxAmountRequired" = Normal (JStr price) ->
  BigInt (JStr price) = Normal required ->
  ReceiptResolves w txHash (JStr "0x1") ->
  TransactionResolves w txHash (JStr to) value ->
  amount value = Normal paid ->
  outcome (verifyPayment w txHash recipient)
  = Normal (equal_up_to_case to payTo && (required <=? paid)).
Proof.
  intros requirement HpayTo Hprice Hrequired Hr Ht Hpaid. subst requirement.
  vm_compute in HpayTo. injection HpayTo as <-.
  vm_compute in Hprice. injection Hprice as <-.
  vm_compute in Hrequired. injection Hrequired as <-.
  rewrite (verifyPayment_resolved _ _ recipient _ _ Hr Ht).
  cbn [opt_toLowerCase is_string outcome snd].
  now rewrite toLowerCase_equal_up_to_case, Hpaid.
Qed.

Lemma challenge_terms_decide_acceptance_sample :
  outcome (verifyPayment paid_world HASH WALLET)
  = Normal (equal_up_to_case (toLowerCase WALLET) WALLET && (10 ^ 15 <=? 10 ^ 15)).
Proof.
  apply (challenge_terms_decide_acceptance paid_world WALLET HASH WALLET "1000000000000000"
           (toLowerCase WALLET) (JStr "0x38d7ea4c68000") (10 ^ 15) (10 ^ 15)).
  - reflexivity.
  - reflexivity.
  - reflexivity.
  - apply (node_receipt (JStr "0x1")).
  - apply (node_transaction (JStr "0x1") (JStr (toLowerCase WALLET))).
  - reflexivity.
Defined.

(** The two ways an accepted request ends. *)
Lemma POST_accepted_cases w req :
  provided (SERVER_WALLET w) = true ->
  provided (x_payment req) = true ->
  Accepted w (held (x_payment req)) (held (SERVER_WALLET w)) ->
  (exists model msgs,
     POST w req = ((paid_posts req ++ [ReadBody; StreamText model msgs SYSTEM_PROMPT])%list,
                   Normal (mkResponse 200 (receipt_header req) (TextStream model msgs))) /\
     stream_fault w model msgs = None) \/
  (exists e t,
     POST w req = ((paid_posts req ++ ReadBody :: t)%list, Normal (internal_error e)) /\
     (t = [] \/ exists model msgs, t = [StreamText model msgs SYSTEM_PROMPT] /\
                                   stream_fault w model msgs = Some e)).
Proof.
  intros Hw Hp Hacc. unfold POST, POST_try. rewrite Hw, Hp. cbn [negb].
  rewrite (verifyPayment_accepted _ _ _ Hacc). unfold request_json, paid_posts, receipt_header.
  destruct (payload req) as [doc | ]; cbn -[get getGoogleModel map_messages].
  2:{ right. exists SyntaxError, []. auto. }
  destruct (get doc "messages") as [ms | e]; cbn -[get getGoogleModel map_messages].
  2:{ right. exists e, []. auto. }
  destruct (get doc "model") as [md | e]; cbn -[get getGoogleModel map_messages].
  2:{ right. exists e, []. auto. }
  destruct (getGoogleModel md) as [model | e]; cbn -[get getGoogleModel map_messages].
  2:{ right. exists e, []. auto. }
  destruct ms as [ | | b | n | s | items | members];
    try (right; exists (Error "Messages must be an array"), []; now auto);
    unfold streamText;
    match goal with
    | |- context [map_messages ?l] =>
        destruct (map_messages l) as [msgs | e]; cbn;
        [ destruct (stream_fault w model msgs) as [e | ] eqn:Hf; cbn;
          [ right; exists e, [StreamText model msgs SYSTEM_PROMPT];
            split; [reflexivity | right; eauto]
          | left; exists model, msgs; auto ]
        | right; exists e, []; auto ]
    end.
Qed.

Lemma rejected_is_not_accepted w txHash expectedRecipient :
  outcome (verifyPayment w txHash expectedRecipient) = Normal false ->
  ~ Accepted w txHash expectedRecipient.
Proof.
  intros Hf Hacc. rewrite (verifyPayment_accepted _ _ _ Hacc) in Hf. discriminate Hf.
Qed.

(** X9. Every request is answered, with status 200, 402 or 500. The answer
    is 402 exactly when the recipient is configured and the proof is absent
    or not accepted. An answer 200 is given only for an accepted proof; it
    carries the receipt of that proof and the stream of a completion call
    that was made. *)
Theorem POST_status_table (w : world) (req : request) :
  exists r,
    outcome (POST w req) = Normal r /\
    (status r = 200 \/ status r = 402 \/ status r = 500) /\
    (status r = 402 <->
       provided (SERVER_WALLET w) = true /\
       (provided (x_payment req) = false \/
        ~ Accepted w (held (x_payment req)) (held (SERVER_WALLET w)))) /\
    (status r = 200 ->
       Accepted w (held (x_payment req)) (held (SERVER_WALLET w)) /\
       headers r = receipt_header req /\
       exists model msgs,
         content_of r = TextStream model msgs /\
         In (StreamText model msgs SYSTEM_PROMPT) (trace (POST w req))).
Proof.
  destruct (provided (SERVER_WALLET w)) eqn:Hw.
  2:{ rewrite (POST_unconfigured w req Hw). exists configuration_error. cbn.
      repeat split; auto; try discriminate. now intros [? _]. }
  destruct (provided (x_payment req)) eqn:Hp.
  2:{ rewrite (POST_challenge w req Hw Hp). eexists. cbn.
      repeat split; eauto; discriminate. }
  destruct (verifyPayment_never_throws w (held (x_payment req)) (held (SERVER_WALLET w)))
    as [[] Hb].
  - apply verifyPayment_true_inv in Hb.
    destruct (POST_accepted_cases w req Hw Hp Hb)
      as [(model & msgs & -> & _) | (e & t & -> & _)]; eexists; cbn;
      (split; [reflexivity | ]); repeat split; auto; try discriminate.
    + intros [_ [H | H]]; [discriminate | contradiction].
    + exists model, msgs. split; [reflexivity | ].
      unfold paid_posts. cbn. auto.
    + intros [_ [H | H]]; [discriminate | contradiction].
  - rewrite (POST_rejected w req Hw Hp Hb). exists rejection. cbn.
    repeat split; auto; try discriminate.
    right. now apply rejected_is_not_accepted.
Qed.

Lemma map_messages_readable (items : list jsval) :
  forallb readable items = true ->
  map_messages items = Normal (List.map core_of_item items).
Proof.
  induction items as [ | item items IH]; cbn -[get]; [reflexivity | ].
  intros H. apply andb_prop in H as [Hitem Hitems]. rewrite (IH Hitems).
  unfold core_of_item, member. now destruct item.
Qed.

(** An element that is [null] makes the mapping throw. *)
Lemma map_messages_unreadable (items : list jsval) :
  forallb readable items = false -> map_messages items = Throw TypeError.
Proof.
  induction items as [ | item items IH]; cbn -[get]; [discriminate | ].
  intros H. apply andb_false_iff in H as [Hitem | Hitems].
  - now destruct item.
  - rewrite (IH Hitems). now destruct item.
Qed.

(** X5. The admitted path. An accepted proof is answered 200, with a
    receipt that repeats the proof and says it is verified, when the body
    parses, its [messages] (the empty array when absent) is an array none of
    whose elements is [null], the model resolves and the completion
    capability does not throw. The handler performs, in order, the two
    posts, the read of the body and one call of the capability, which gets
    the [role] and [content] of each element. *)
Theorem admitted_request_is_answered_200 (w : world) (req : request) (doc : jsval)
    (items : list jsval) (model : model_handle) :
  provided (SERVER_WALLET w) = true ->
  provided (x_payment req) = true ->
  Accepted w (held (x_payment req)) (held (SERVER_WALLET w)) ->
  payload req = Some doc ->
  messages_of doc = Normal (JArr items) ->
  forallb readable items = true ->
  cbind (get doc "model") getGoogleModel = Normal model ->
  stream_fault w model (List.map core_of_item items) = None ->
  POST w req
  = ((paid_posts req
      ++ [ReadBody; StreamText model (List.map core_of_item items) SYSTEM_PROMPT])%list,
     Normal (mkResponse 200 (receipt_header req)
               (TextStream model (List.map core_of_item items)))).
Proof.
  intros Hw Hp Hacc Hdoc Hms Hread Hmodel Hok.
  apply (POST_admitted w req doc items _ model); auto.
  now apply map_messages_readable.
Qed.

Lemma admitted_request_is_answered_200_sample :
  POST paid_world chat_request
  = ([ receipt_post HASH; transaction_post HASH; ReadBody;
       StreamText (google "gemini-2.0-flash") [ mkMessage (JStr "user") (JStr "Hello") ]
                  SYSTEM_PROMPT ],
     Normal (mkResponse 200
               [ ("X-Payment-Receipt",
                  Stringify (JObj [ ("txHash", JStr HASH); ("verified", JBool true) ])) ]
               (TextStream (google "gemini-2.0-flash")
                           [ mkMessage (JStr "user") (JStr "Hello") ]))).
Proof.
  apply (admitted_request_is_answered_200 paid_world chat_request
           (JObj [ ("messages", JArr [ hello "user" ]); ("model", JStr "gemini-2.0-flash") ])
           [ hello "user" ]); try reflexivity.
  exact paid_world_accepts.
Defined.

(** X6. A paid request whose [messages] member is present and not an array
    is answered 500 after the body was read, and the completion capability
    is not called. The model is looked up before the array test: when the
    lookup returns, the error is the route's own, Messages must be an array;
    when the lookup throws, the error is the one it threw. *)
Theorem paid_request_with_bad_messages_is_500 (w : world) (req : request)
    (doc ms : jsval) :
  provided (SERVER_WALLET w) = true ->
  provided (x_payment req) = true ->
  Accepted w (held (x_payment req)) (held (SERVER_WALLET w)) ->
  payload req = Some doc ->
  messages_of doc = Normal ms ->
  is_array ms = false ->
  POST w req
    = ((paid_posts req ++ [ReadBody])%list, Normal (internal_error (bad_messages_error doc))) /\
  (forall model, cbind (get doc "model") getGoogleModel = Normal model ->
                 bad_messages_error doc = Error "Messages must be an array") /\
  (forall e, cbind (get doc "model") getGoogleModel = Throw e -> bad_messages_error doc = e).
Proof.
  intros Hw Hp Hacc Hdoc Hms Harr. unfold bad_messages_error.
  split; [ | split; intros x Hx; now rewrite Hx].
  unfold POST, POST_try. rewrite Hw, Hp. cbn [negb].
  rewrite (verifyPayment_accepted _ _ _ Hacc).
  unfold request_json. rewrite Hdoc. unfold messages_of in Hms.
  cbn -[get getGoogleModel map_messages].
  destruct (get doc "messages") as [raw | ]; [ | discriminate Hms].
  cbn [cbind] in Hms. apply Normal_inj in Hms.
  destruct (get doc "model") as [md | e]; cbn -[getGoogleModel map_messages];
    [ | reflexivity].
  destruct (getGoogleModel md) as [model | e]; cbn -[map_messages]; [ | reflexivity].
  rewrite Hms. now destruct ms.
Qed.

Lemma paid_request_with_bad_messages_is_500_sample :
  (POST paid_world text_messages_request
   = ([receipt_post HASH; transaction_post HASH; ReadBody],
      Normal (internal_error (Error "Messages must be an array")))) /\
  (POST paid_world odd_model_request
   = ([receipt_post HASH; transaction_post HASH; ReadBody],
      Normal (internal_error TypeError))).
Proof.
  split.
  - apply (paid_request_with_bad_messages_is_500 paid_world text_messages_request
             (JObj [ ("messages", JStr "Hello") ]) (JStr "Hello"));
      try reflexivity.
    exact paid_world_accepts.
  - apply (paid_request_with_bad_messages_is_500 paid_world odd_model_request
             (JObj [ ("messages", JStr "Hello");
                     ("model", JObj [ ("toString", number 1) ]) ]) (JStr "Hello"));
      try reflexivity.
    exact paid_world_accepts.
Defined.

(** X7. A paid request whose body is not JSON, or is the document [null],
    is answered 500 after the verification and the read of the body; the
    completion capability is not called. *)
Theorem paid_request_with_unreadable_body_is_500 (w : world) (req : request) :
  provided (SERVER_WALLET w) = true ->
  provided (x_payment req) = true ->
  Accepted w (held (x_payment req)) (held (SERVER_WALLET w)) ->
  payload req = None \/ payload req = Some JNull ->
  exists e,
    POST w req = ((paid_posts req ++ [ReadBody])%list, Normal (internal_error e)).
Proof.
  intros Hw Hp Hacc Hbody.
  unfold POST, POST_try. rewrite Hw, Hp. cbn [negb].
  rewrite (verifyPayment_accepted _ _ _ Hacc).
  unfold request_json, paid_posts. destruct Hbody as [-> | ->]; cbn; eexists; reflexivity.
Qed.

Lemma paid_request_with_unreadable_body_is_500_sample :
  exists e,
    POST paid_world unreadable_request
    = ([receipt_post HASH; transaction_post HASH; ReadBody], Normal (internal_error e)).
Proof.
  apply (paid_request_with_unreadable_body_is_500 paid_world unreadable_request);
    try reflexivity.
  - exact paid_world_accepts.
  - left. reflexivity.
Defined.

(** X8. When the completion capability throws, the paid request is answered
    500 with that error, after the call was made; nothing of the
    verification is undone. *)
Theorem completion_failure_is_500 (w : world) (req : request) (doc : jsval)
    (items : list jsval) (msgs : list core_message) (model : model_handle) (e : exn) :
  provided (SERVER_WALLET w) = true ->
  provided (x_payment req) = true ->
  Accepted w (held (x_payment req)) (held (SERVER_WALLET w)) ->
  payload req = Some doc ->
  messages_of doc = Normal (JArr items) ->
  cbind (get doc "model") getGoogleModel = Normal model ->
  map_messages items = Normal msgs ->
  stream_fault w model msgs = Some e ->
  POST w req
  = ((paid_posts req ++ [ReadBody; StreamText model msgs SYSTEM_PROMPT])%list,
     Normal (internal_error e)).
Proof.
  intros Hw Hp Hacc Hdoc Hms Hmodel Hmap Hfault.
  unfold POST, POST_try. rewrite Hw, Hp. cbn [negb].
  rewrite (verifyPayment_accepted _ _ _ Hacc).
  unfold request_json. rewrite Hdoc. unfold messages_of in Hms.
  cbn -[get getGoogleModel map_messages].
  destruct (get doc "messages") as [raw | ]; [ | discriminate Hms].
  destruct (get doc "model") as [md | ]; [ | discriminate Hmodel].
  cbn [cbind] in Hms, Hmodel. apply Normal_inj in Hms.
  rewrite Hmodel, Hms, Hmap.
  unfold streamText. cbn. rewrite Hfault. reflexivity.
Qed.

Lemma completion_failure_is_500_sample :
  POST failing_world chat_request
  = ([ receipt_post HASH; transaction_post HASH; ReadBody;
       StreamText (google "gemini-2.0-flash") [ mkMessage (JStr "user") (JStr "Hello") ]
                  SYSTEM_PROMPT ],
     Normal (internal_error (Error "quota exceeded"))).
Proof.
  apply (completion_failure_is_500 failing_world chat_request
           (JObj [ ("messages", JArr [ hello "user" ]); ("model", JStr "gemini-2.0-flash") ])
           [ hello "user" ]); try reflexivity.
  exact failing_world_accepts.
Defined.

Lemma getGoogleModel_text (id : string) :
  getGoogleModel (JStr id) = Normal (expected_model id).
Proof.
  unfold getGoogleModel, models_at, expected_model, RECOGNIZED, mem, models, own.
  cbn [to_string cbind existsb].
  destruct (String.eqb_spec id "gemini-2.5-flash") as [-> | _]; [reflexivity | ].
  destruct (String.eqb_spec id "gemini-2.0-flash") as [-> | _]; [reflexivity | ].
  destruct (String.eqb_spec id "gemini-1.5-pro") as [-> | _]; [reflexivity | ].
  cbn [orb]. now destruct (existsb (String.eqb id) object_prototype_names).
Qed.

(** X10. On a string, [getGoogleModel] never throws: a recognized
    identifier resolves to its own model, one of the twelve names inherited
    from [Object.prototype] to that inherited member, and every other string
    to the default model. *)
Theorem getGoogleModel_on_text (id : string) :
  getGoogleModel (JStr id) = Normal (expected_model id) /\
  List.length object_prototype_names = 12%nat.
Proof.
  split; [apply getGoogleModel_text | reflexivity].
Qed.

(** ** The page against the route *)

(** X11. The preflight request of the page carries no proof, so a
    configured server answers it with the 402 challenge without posting to
    the ledger node or reading the body, and the recipient the page reads
    from that answer is the configured wallet. *)
Theorem preflight_is_challenged (w : world) (currentInput selectedModel : string) :
  provided (SERVER_WALLET w) = true ->
  exists doc,
    POST w (Client.preflight currentInput selectedModel)
      = ([], Normal (mkResponse 402 json_headers (Json doc))) /\
    Client.payment_target doc = Normal (JStr (held (SERVER_WALLET w))).
Proof.
  intros Hw.
  rewrite (POST_challenge w (Client.preflight currentInput selectedModel) Hw eq_refl).
  eexists. split; reflexivity.
Qed.

Lemma preflight_is_challenged_sample :
  exists doc,
    POST paid_world (Client.preflight "Hello" "gemini-2.0-flash")
      = ([], Normal (mkResponse 402 json_headers (Json doc))) /\
    Client.payment_target doc = Normal (JStr WALLET).
Proof.
  exact (preflight_is_challenged paid_world "Hello" "gemini-2.0-flash" eq_refl).
Defined.

(** X12. A 402 body whose [accepts] member is absent, falsy or an empty
    array gives the page no payment option: it throws its own error, as it
    does on the rejection body of the route. *)
Theorem no_payment_option_is_an_error (paymentInfo accepts : jsval) :
  get paymentInfo "accepts" = Normal accepts ->
  truthy accepts = false \/ accepts = JArr [] ->
  Client.payment_target paymentInfo = Throw (Error "No payment options available").
Proof.
  intros Hget H. unfold Client.payment_target. rewrite Hget. cbn [cbind].
  unfold or_else. destruct H as [-> | ->]; reflexivity.
Qed.

Lemma no_payment_option_is_an_error_sample :
  content_of rejection
    = Json (JObj [ ("x402Version", number 1); ("error", JStr VERIFICATION_FAILED) ]) /\
  Client.payment_target
    (JObj [ ("x402Version", number 1); ("error", JStr VERIFICATION_FAILED) ])
  = Throw (Error "No payment options available").
Proof.
  split; [reflexivity | ].
  apply (no_payment_option_is_an_error _ JUndefined); [reflexivity | left; reflexivity].
Defined.

Lemma map_messages_of_page (messages : list Client.chat_message) (tail : list jsval)
    (mapped : list core_message) :
  map_messages tail = Normal mapped ->
  map_messages (List.map Client.to_json messages ++ tail)
  = Normal (List.map core_of messages ++ mapped)%list.
Proof.
  intros Htail. induction messages as [ | msg messages IH]; [exact Htail | ].
  cbn [List.map app]. unfold map_messages; fold map_messages. rewrite IH. reflexivity.
Qed.

(** X13. A chat request built by the page with a stored hash (a non-empty
    header token) that the verifier accepts reaches the completion
    capability: the route passes on
    the earlier messages of the page followed by the new user message, a
    sequence that is never empty and whose roles are all user or
    assistant, with the model its identifier resolves to. *)
Theorem page_request_reaches_completion (w : world) (messages : list Client.chat_message)
    (currentInput selectedModel txHash : string) :
  provided (SERVER_WALLET w) = true ->
  txHash <> "" ->
  header_token txHash = true ->
  Accepted w txHash (held (SERVER_WALLET w)) ->
  let req := Client.chat_call messages currentInput selectedModel (Some txHash) in
  let msgs := (List.map core_of messages ++ [mkMessage (JStr "user") (JStr currentInput)])%list in
  trace (POST w req)
    = [ receipt_post txHash; transaction_post txHash; ReadBody;
        StreamText (expected_model selectedModel) msgs SYSTEM_PROMPT ] /\
  msgs <> [] /\
  Forall (fun m => enumerated_role (Route.role m) = true) msgs.
Proof.
  intros Hw Hhash _ Hacc req msgs.
  assert (Hp : provided (Some txHash) = true).
  { cbn. now apply negb_true_iff, String.eqb_neq. }
  repeat split.
  - subst req. unfold POST, POST_try, Client.chat_call. rewrite Hp. cbn [x_payment].
    rewrite Hw, Hp. cbn [negb held]. cbn [held] in Hacc.
    rewrite (verifyPayment_accepted _ _ _ Hacc).
    unfold request_json. cbn [payload].
    cbn -[getGoogleModel map_messages List.map app].
    rewrite getGoogleModel_text.
    cbn -[getGoogleModel map_messages List.map app].
    rewrite (map_messages_of_page messages _ [mkMessage (JStr "user") (JStr currentInput)])
      by reflexivity.
    unfold streamText. fold msgs.
    cbn -[List.map app]. now destruct (stream_fault w (expected_model selectedModel) msgs).
  - subst msgs. now destruct (List.map core_of messages).
  - subst msgs. apply Forall_app. split.
    + apply Forall_forall. intros m Hin. apply in_map_iff in Hin as (msg & <- & _).
      unfold core_of. cbn. now destruct (Client.role msg).
    + now constructor.
Qed.

Lemma page_request_reaches_completion_sample :
  trace (POST paid_world
           (Client.chat_call [ Client.mkChat "1" Client.user "Hi";
                               Client.mkChat "2" Client.assistant "Hello" ]
                             "More" "gemini-1.5-pro" (Some HASH)))
  = [ receipt_post HASH; transaction_post HASH; ReadBody;
      StreamText (google "gemini-1.5-pro")
                 [ mkMessage (JStr "user") (JStr "Hi");
                   mkMessage (JStr "assistant") (JStr "Hello");
                   mkMessage (JStr "user") (JStr "More") ]
                 SYSTEM_PROMPT ].
Proof.
  refine (proj1 (page_request_reaches_completion paid_world
                   [ Client.mkChat "1" Client.user "Hi";
                     Client.mkChat "2" Client.assistant "Hello" ]
                   "More" "gemini-1.5-pro" HASH eq_refl _ eq_refl paid_world_accepts)).
  discriminate.
Defined.

(** ** The stream reader of the page *)

Section StreamReader.
Variable JSON_parse : string -> completion jsval.
Variable assistantMessageId : string.

Lemma appended_prefix fullContent line :
  Client.appended JSON_parse fullContent line
  = fullContent ++ Client.appended JSON_parse "" line.
Proof.
  unfold Client.appended. now destruct (cbind _ _).
Qed.

Lemma read_lines_prefix lines : forall fullContent messages messages',
  fst (fold_left (Client.read_line JSON_parse assistantMessageId) lines
         (fullContent, messages))
  = fullContent
    ++ fst (fold_left (Client.read_line JSON_parse assistantMessageId) lines ("", messages')).
Proof.
  induction lines as [ | line lines IH]; intros fullContent messages messages';
    cbn [fold_left].
  - cbn. now rewrite append_nil_r.
  - unfold Client.read_line at 2 4. destruct (Client.startsWith line "0:").
    + rewrite (IH _ _ messages'),
        (IH (Client.appended JSON_parse "" line) _ messages').
      now rewrite appended_prefix, append_assoc.
    + apply IH.
Qed.

(** X14. Reading a chunk only appends to the accumulated text, and what it
    appends depends on the chunk alone, not on the text or the messages
    accumulated before. *)
Theorem stream_only_appends (fullContent chunk : string)
    (messages : list Client.chat_message) :
  fst (Client.read_chunk JSON_parse assistantMessageId (fullContent, messages) chunk)
  = fullContent ++ fst (Client.read_chunk JSON_parse assistantMessageId ("", []) chunk).
Proof. apply read_lines_prefix. Qed.

Lemma split_lines_nonempty s : Client.split_lines s <> [].
Proof.
  destruct s as [ | c s]; cbn -[Client.LF Ascii.eqb]; [discriminate | ].
  destruct (Ascii.eqb c Client.LF); [discriminate | ].
  destruct (Client.split_lines s); discriminate.
Qed.

Lemma split_lines_newline s t :
  Client.split_lines (s ++ String Client.LF t)
  = (Client.split_lines s ++ Client.split_lines t)%list.
Proof.
  induction s as [ | c s IH]; cbn -[Client.LF Ascii.eqb].
  - now rewrite Ascii.eqb_refl.
  - rewrite IH. destruct (Ascii.eqb c Client.LF); [reflexivity | ].
    pose proof (split_lines_nonempty s) as Hne.
    destruct (Client.split_lines s); [now destruct Hne | reflexivity].
Qed.

(** X15. Chunks that end at a line end compose: reading a chunk that ends
    with a newline and then the next chunk gives the same text and messages
    as reading the two as one chunk. *)
Theorem chunks_compose_at_line_ends (state : string * list Client.chat_message)
    (chunk next : string) :
  Client.read_chunk JSON_parse assistantMessageId
    (Client.read_chunk JSON_parse assistantMessageId state (chunk ++ String Client.LF ""))
    next
  = Client.read_chunk JSON_parse assistantMessageId state (chunk ++ String Client.LF next).
Proof.
  unfold Client.read_chunk. rewrite !split_lines_newline, !fold_left_app.
  cbn [Client.split_lines fold_left].
  now destruct (fold_left _ (Client.split_lines chunk) state).
Qed.

(** X16. A chunk none of whose lines starts with 0: changes neither the
    accumulated text nor the messages. *)
Theorem unframed_chunk_is_dropped (state : string * list Client.chat_message)
    (chunk : string) :
  forallb (fun line => negb (Client.startsWith line "0:")) (Client.split_lines chunk) = true ->
  Client.read_chunk JSON_parse assistantMessageId state chunk = state.
Proof.
  unfold Client.read_chunk. revert state.
  induction (Client.split_lines chunk) as [ | line lines IH]; intros state H; cbn in *;
    [reflexivity | ].
  apply andb_prop in H as [Hline Hlines]. rewrite <- (IH state Hlines) at 2. f_equal.
  unfold Client.read_line. destruct state. apply negb_true_iff in Hline. now rewrite Hline.
Qed.

Lemma set_content_shows fullContent messages :
  Client.shows assistantMessageId fullContent
    (Client.set_content assistantMessageId fullContent messages).
Proof.
  intros msg Hin Hid. unfold Client.set_content in Hin. apply in_map_iff in Hin.
  destruct Hin as (msg0 & <- & _).
  destruct (String.eqb_spec (Client.id msg0) assistantMessageId) as [_ | Hne];
    [reflexivity | now destruct Hne].
Qed.

(** X17. The display follows the stream: if the assistant message shows the
    accumulated text before a chunk is read, it shows the accumulated text
    after it; the identifiers and order of the messages are kept and the
    other messages are left as they were. *)
Theorem display_follows_stream (fullContent chunk : string)
    (messages : list Client.chat_message) :
  Client.shows assistantMessageId fullContent messages ->
  let state := Client.read_chunk JSON_parse assistantMessageId (fullContent, messages) chunk in
  Client.shows assistantMessageId (fst state) (snd state) /\
  List.map Client.id (snd state) = List.map Client.id messages /\
  filter (fun msg => negb (String.eqb (Client.id msg) assistantMessageId)) (snd state)
  = filter (fun msg => negb (String.eqb (Client.id msg) assistantMessageId)) messages.
Proof.
  unfold Client.read_chunk. revert fullContent messages.
  induction (Client.split_lines chunk) as [ | line lines IH]; intros fullContent messages H;
    cbn [fold_left].
  - cbn. auto.
  - unfold Client.read_line at 2 4 6 8. destruct (Client.startsWith line "0:").
    + destruct (IH _ _ (set_content_shows (Client.appended JSON_parse fullContent line)
                          messages)) as (H1 & H2 & H3).
      split; [exact H1 | ]. rewrite H2, H3. clear.
      unfold Client.set_content. split.
      * rewrite map_map. apply map_ext. intros msg.
        now destruct (String.eqb (Client.id msg) assistantMessageId).
      * induction messages as [ | msg messages IH]; cbn; [reflexivity | ].
        destruct (String.eqb (Client.id msg) assistantMessageId) eqn:E; cbn; rewrite E; cbn;
          now rewrite IH.
    + now apply IH.
Qed.
End StreamReader.

Lemma unframed_chunk_is_dropped_sample :
  Client.read_chunk no_json "2" ("", [ Client.mkChat "2" Client.assistant "" ])
                    (String "H" (String "i" (String Client.LF "there")))
  = ("", [ Client.mkChat "2" Client.assistant "" ]).
Proof.
  apply (unframed_chunk_is_dropped no_json "2").
  reflexivity.
Defined.

Lemma display_follows_stream_sample :
  let state :=
    Client.read_chunk no_json "2"
      ("", [ Client.mkChat "1" Client.user "Hi"; Client.mkChat "2" Client.assistant "" ])
      "0:Hello" in
  Client.shows "2" (fst state) (snd state) /\
  List.map Client.id (snd state) = ["1"; "2"] /\
  filter (fun msg => negb (String.eqb (Client.id msg) "2")) (snd state)
  = [ Client.mkChat "1" Client.user "Hi" ].
Proof.
  apply (display_follows_stream no_json "2" ""
           "0:Hello"
           [ Client.mkChat "1" Client.user "Hi"; Client.mkChat "2" Client.assistant "" ]).
  intros msg [<- | [<- | []]]; [discriminate | reflexivity].
Defined.
